(** * PIF+AI Lookup Relay: a model of [server.js]

    The relay is an Express application with four GET routes.  Two of them
    ([/] and [/health]) answer with a static status object; the other two
    ([/fetch-pif] and [/fetch-pif-raw]) query a Google Apps Script, and relay
    what it answers, the first one after reordering the columns of each row.

    The development embeds the route handlers as programs over the values of
    JavaScript that a JSON document can hold.  The effects of a handler (the
    system clock, the outgoing HTTP request, exceptions) are explicit:
    handlers are trees of requests to the runtime, and [exec] runs a tree
    against a description of the outside world.

    Left out: the middleware (the JSON body parser, the CORS headers and the
    answer to OPTIONS requests), which changes neither the status nor the
    body of the reply to a GET request, and the lines written to the
    console. *)

From Stdlib Require Import ZArith String Ascii List Lia.
From Stdlib Require Import Floats.SpecFloat.
From stdpp Require Import base option list strings pretty gmap.

Local Open Scope string_scope.
Local Open Scope Z_scope.

Set Warnings "-register-all".

(** ** JavaScript values *)

Module JS.

(** The values [JSON.parse] can build, and [undefined], which a missing
    property reads as.  A number is an IEEE 754 double. *)
Inductive value : Type :=
| VUndefined
| VNull
| VBool (b : bool)
| VNum (x : spec_float)
| VStr (s : string)
| VArr (elems : list value)
| VObj (props : list (string * value)).

(** A string is a sequence of code units; a character of [string] stands for
    one code unit. *)

(** Exceptions.  The handlers only ever read [error.message]. *)
Inductive exn : Type :=
| TypeError (msg : string)
| Error (msg : string)
| FetchError (msg : string).

Definition message (e : exn) : string :=
  match e with
  | TypeError msg | Error msg | FetchError msg => msg
  end.

(** The outcome of evaluating an expression: a value, or a thrown exception. *)
Inductive completion (A : Type) : Type :=
| Normal (a : A)
| Thrown (e : exn).
Arguments Normal {A} a.
Arguments Thrown {A} e.

#[global] Instance completion_ret : MRet completion := @Normal.
#[global] Instance completion_bind : MBind completion :=
  λ A B f c, match c with Normal a => f a | Thrown e => Thrown e end.
#[global] Instance completion_fmap : FMap completion :=
  λ A B f c, match c with Normal a => Normal (f a) | Thrown e => Thrown e end.

(** [ToBoolean]: [undefined], [null], [false], [+0], [-0], [NaN] and the empty
    string are falsy, everything else (empty arrays and objects too) is
    truthy. *)
Definition truthy (v : value) : bool :=
  match v with
  | VUndefined | VNull => false
  | VBool b => b
  | VNum (S754_zero _) | VNum S754_nan => false
  | VNum _ => true
  | VStr "" => false
  | VStr _ => true
  | VArr _ | VObj _ => true
  end.

(** [a || b] *)
Definition or (a b : value) : value := if truthy a then a else b.

Definition nullish (v : value) : bool :=
  match v with VUndefined | VNull => true | _ => false end.

(** The double of a natural number (exact below 2^53). *)
Definition number (n : nat) : value :=
  VNum (binary_normalize 53 1024 (Z.of_nat n) 0 false).

(** *** Property access *)

Definition is_digit (c : ascii) : bool :=
  let n := nat_of_ascii c in (48 <=? n)%nat && (n <=? 57)%nat.

Fixpoint digits_value (s : string) (acc : nat) : option nat :=
  match s with
  | EmptyString => Some acc
  | String c s' =>
      if is_digit c
      then digits_value s' (10 * acc + (nat_of_ascii c - 48))%nat
      else None
  end.

(** A property key is an array index when it is the canonical decimal
    numeral of a natural number: ["0"], ["17"], but not ["01"] or [""]. *)
Definition array_index (key : string) : option nat :=
  match key with
  | EmptyString => None
  | String "0" EmptyString => Some 0%nat
  | String "0" _ => None
  | _ => digits_value key 0
  end.

(** The own property [key] of an object, if it has one. *)
Fixpoint own_property (key : string) (props : list (string * value)) : option value :=
  match props with
  | [] => None
  | (k, v) :: rest => if String.eqb k key then Some v else own_property key rest
  end.

Definition lookup_prop (key : string) (props : list (string * value)) : value :=
  default VUndefined (own_property key props).

Definition type_name (v : value) : string :=
  match v with VNull => "null" | _ => "undefined" end.

(** [v[key]] and [v.key], for the keys the relay reads: array indices,
    [length], and names that no built-in prototype defines ([success],
    [data], [error]).  Reading a property of [undefined] or [null] throws;
    a property that is not there reads as [undefined]. *)
Definition get (v : value) (key : string) : completion value :=
  match v with
  | VUndefined | VNull =>
      Thrown (TypeError ("Cannot read properties of " +:+ type_name v +:+
                         " (reading '" +:+ key +:+ "')"))
  | VBool _ | VNum _ => Normal VUndefined
  | VStr s =>
      if String.eqb key "length" then Normal (number (String.length s))
      else match array_index key with
           | Some i =>
               match String.get i s with
               | Some c => Normal (VStr (String c EmptyString))
               | None => Normal VUndefined
               end
           | None => Normal VUndefined
           end
  | VArr elems =>
      if String.eqb key "length" then Normal (number (length elems))
      else match array_index key with
           | Some i => Normal (default VUndefined (elems !! i))
           | None => Normal VUndefined
           end
  | VObj props => Normal (lookup_prop key props)
  end.

(** *** Conversion to a string *)

(** [Number::toString] in radix 10 of a positive finite double [m * 2^e]:
    the shortest decimal [s * 10^(n-k)], [s] of [k] digits, that reads back
    as the same double, and among those the one closest to it. *)
Module NumberToString.

(** [s * 10^p] compared with [v * 2^q] *)
Definition compare_scaled (s p v q : Z) : comparison :=
  (s * 10 ^ Z.max p 0 * 2 ^ Z.max (- q) 0 ?= v * 10 ^ Z.max (- p) 0 * 2 ^ Z.max q 0).

Section digits.
Variables (m : positive) (e : Z).

(** The doubles next to [x = m * 2^e] lie at [x - 2^e] (at [x - 2^(e-1)]
    when [x] is a power of two above the subnormals) and at [x + 2^e];
    a real number strictly between the midpoints rounds to [x], and the
    midpoints themselves do when [m] is even.  In units of [2^(e-2)]: *)
Definition lower : Z :=
  if (Z.pos m =? 2 ^ 52) && (-1074 <? e) then 4 * Z.pos m - 1 else 4 * Z.pos m - 2.
Definition upper : Z := 4 * Z.pos m + 2.

Definition reads_back (s p : Z) : bool :=
  match compare_scaled s p lower (e - 2), compare_scaled s p upper (e - 2) with
  | Gt, Lt => true
  | Eq, Lt | Gt, Eq => Z.even (Z.pos m)
  | _, _ => false
  end.

(** The [n] with [10^(n-1) <= x < 10^n], searched around an estimate
    from the binary exponent. *)
Definition below_pow10 (n : Z) : bool :=
  match compare_scaled 1 n (4 * Z.pos m) (e - 2) with Gt => true | _ => false end.

Fixpoint adjust (fuel : nat) (n : Z) : Z :=
  match fuel with
  | O => n
  | S fuel' =>
      if below_pow10 (n - 1) then adjust fuel' (n - 1)
      else if below_pow10 n then n
      else adjust fuel' (n + 1)
  end.

Definition magnitude : Z :=
  adjust 8 ((Z.log2 (Z.pos m) + 1 + e) * 30103 / 100000).

(** [floor (x / 10^p)] *)
Definition scaled_floor (p : Z) : Z :=
  (Z.pos m * 2 ^ Z.max e 0 * 10 ^ Z.max (- p) 0) / (2 ^ Z.max (- e) 0 * 10 ^ Z.max p 0).

(** The [k]-digit candidate, if one reads back. *)
Definition candidate (k : Z) : option (Z * Z) :=
  let p := magnitude - k in
  let lo := scaled_floor p in
  let hi := lo + 1 in
  let pick s := if s =? 10 ^ k then Some (10 ^ (k - 1), magnitude + 1)
                else Some (s, magnitude) in
  match reads_back lo p && (0 <? lo), reads_back hi p with
  | true, true =>
      match compare_scaled (2 * lo + 1) p (8 * Z.pos m) (e - 2) with
      | Gt => pick lo
      | Lt => pick hi
      | Eq => if Z.even lo then pick lo else pick hi
      end
  | true, false => pick lo
  | false, true => pick hi
  | false, false => None
  end.

(** The first [k] from [k] on that has a candidate; a double never needs
    more than seventeen digits. *)
Fixpoint shortest (fuel : nat) (k : Z) : Z * Z * Z :=
  match fuel with
  | O => (Z.pos m, k, magnitude)
  | S fuel' =>
      match candidate k with
      | Some (s, n) => (s, k, n)
      | None => shortest fuel' (k + 1)
      end
  end.
End digits.

Fixpoint zeros (n : nat) : string :=
  match n with O => "" | S n' => String "0" (zeros n') end.

Definition layout (s k n : Z) : string :=
  let ds := pretty s in
  if (k <=? n) && (n <=? 21) then ds +:+ zeros (Z.to_nat (n - k))
  else if (0 <? n) && (n <=? 21) then
    substring 0 (Z.to_nat n) ds +:+ "." +:+ substring (Z.to_nat n) (Z.to_nat (k - n)) ds
  else if (-6 <? n) && (n <=? 0) then "0." +:+ zeros (Z.to_nat (- n)) +:+ ds
  else
    let exponent := (if n - 1 <? 0 then "-" else "+") +:+ pretty (Z.abs (n - 1)) in
    if k =? 1 then ds +:+ "e" +:+ exponent
    else substring 0 1 ds +:+ "." +:+ substring 1 (Z.to_nat (k - 1)) ds +:+ "e" +:+ exponent.

Definition positive_finite (m : positive) (e : Z) : string :=
  let '(s, k, n) := shortest m e 17 1 in layout s k n.

Definition to_string (x : spec_float) : string :=
  match x with
  | S754_nan => "NaN"
  | S754_zero _ => "0"
  | S754_infinity false => "Infinity"
  | S754_infinity true => "-Infinity"
  | S754_finite false m e => positive_finite m e
  | S754_finite true m e => "-" +:+ positive_finite m e
  end.

End NumberToString.

Definition join (sep : string) (parts : list string) : string :=
  String.concat sep parts.

(** [ToString(v)], as [new Error(v)] and template literals apply it.  An
    array is the comma-separated list of its elements, where [null] and
    [undefined] elements give nothing. *)
Fixpoint ToString (v : value) : string :=
  match v with
  | VUndefined => "undefined"
  | VNull => "null"
  | VBool true => "true"
  | VBool false => "false"
  | VNum x => NumberToString.to_string x
  | VStr s => s
  | VArr elems =>
      join "," (map (λ e, match e with
                          | VUndefined | VNull => ""
                          | _ => ToString e
                          end) elems)
  | VObj _ => "[object Object]"
  end.

(** *** Methods *)

(** [v.slice(0, n)]: arrays and strings have a [slice]; for every other JSON
    value [v.slice] is not a function and calling it throws. *)
Definition slice_to (n : nat) (what : string) (v : value) : completion value :=
  match v with
  | VArr elems => Normal (VArr (take n elems))
  | VStr s => Normal (VStr (substring 0 n s))
  | VUndefined | VNull =>
      Thrown (TypeError ("Cannot read properties of " +:+ type_name v +:+
                         " (reading 'slice')"))
  | _ => Thrown (TypeError (what +:+ " is not a function"))
  end.

(** [Array.isArray(v)] *)
Definition isArray (v : value) : bool :=
  match v with VArr _ => true | _ => false end.

End JS.
Import JS.

(** ** Dates *)

Module Date.

(** A time value is a number of milliseconds since 1970-01-01T00:00:00Z;
    the runtime keeps it within 100,000,000 days of the epoch. *)
Definition msPerDay : Z := 86400000.
Definition maxTime : Z := 8640000000000000.

Definition valid_time (t : Z) : Prop := - maxTime <= t <= maxTime.

(** The year, month (1 to 12) and day of the month (from 1) of a day number
    in the proleptic Gregorian calendar.  Days are counted from 0000-03-01 in
    cycles of 400 years (146097 days), so that a leap day ends its year. *)
Definition civil (day : Z) : Z * Z * Z :=
  let z := day + 719468 in
  let era := z / 146097 in
  let doe := z mod 146097 in
  let yoe := (doe - doe / 1460 + doe / 36524 - doe / 146096) / 365 in
  let doy := doe - (365 * yoe + yoe / 4 - yoe / 100) in
  let mp := (5 * doy + 2) / 153 in
  let d := doy - (153 * mp + 2) / 5 + 1 in
  let m := if mp <? 10 then mp + 3 else mp - 9 in
  let y := yoe + era * 400 + (if m <=? 2 then 1 else 0) in
  (y, m, d).

Definition digit (d : Z) : ascii := ascii_of_nat (48 + Z.to_nat d).

(** The last [width] decimal digits of [n], most significant first. *)
Fixpoint digits (width : nat) (n : Z) : string :=
  match width with
  | O => ""
  | S w => digits w (n / 10) +:+ String (digit (n mod 10)) ""
  end.

(** Years 0 to 9999 are written with four digits, the others with a sign and
    six digits. *)
Definition year_string (y : Z) : string :=
  if (0 <=? y) && (y <=? 9999) then digits 4 y
  else (if y <? 0 then "-" else "+") +:+ digits 6 (Z.abs y).

(** [new Date(t).toISOString()] for a valid time value [t]. *)
Definition toISOString (t : Z) : string :=
  let '(y, m, d) := civil (t / msPerDay) in
  let ms := t mod msPerDay in
  year_string y +:+ "-" +:+ digits 2 m +:+ "-" +:+ digits 2 d +:+ "T" +:+
  digits 2 (ms / 3600000) +:+ ":" +:+ digits 2 (ms / 60000 mod 60) +:+ ":" +:+
  digits 2 (ms / 1000 mod 60) +:+ "." +:+ digits 3 (ms mod 1000) +:+ "Z".

(** *** Well-formed timestamps *)

(** The ISO 8601 shape [YYYY-MM-DDTHH:mm:ss.sssZ] (or [±YYYYYY-...] for an
    expanded year), with every field in its range. *)
Inductive item : Type :=
| Lit (c : ascii)
| Num (width : nat) (lo hi : Z).

Definition digit_value (c : ascii) : option Z :=
  let n := nat_of_ascii c in
  if (48 <=? n)%nat && (n <=? 57)%nat then Some (Z.of_nat n - 48) else None.

Fixpoint read_number (width : nat) (acc : Z) (s : string) : option (Z * string) :=
  match width with
  | O => Some (acc, s)
  | S w =>
      match s with
      | String c s' =>
          match digit_value c with
          | Some d => read_number w (10 * acc + d) s'
          | None => None
          end
      | EmptyString => None
      end
  end.

Fixpoint matches (format : list item) (s : string) : bool :=
  match format with
  | [] => match s with EmptyString => true | _ => false end
  | Lit c :: format' =>
      match s with
      | String c' s' => Ascii.eqb c c' && matches format' s'
      | EmptyString => false
      end
  | Num width lo hi :: format' =>
      match read_number width 0 s with
      | Some (n, s') => (lo <=? n) && (n <=? hi) && matches format' s'
      | None => false
      end
  end.

Definition after_year : list item :=
  [Lit "-"; Num 2 1 12; Lit "-"; Num 2 1 31; Lit "T"; Num 2 0 23; Lit ":";
   Num 2 0 59; Lit ":"; Num 2 0 59; Lit "."; Num 3 0 999; Lit "Z"]%char.

Definition iso8601 (s : string) : bool :=
  match s with
  | String c s' =>
      if Ascii.eqb c "+" || Ascii.eqb c "-"
      then matches (Num 6 0 999999 :: after_year) s'
      else matches (Num 4 0 9999 :: after_year) s
  | EmptyString => false
  end.

End Date.

(** ** The column transform of [/fetch-pif] *)

(** The callback given to [result.data.map]:
    [row => [row[0] || '', row[2] || '', row[1] || '', row[3] || '', row[3] || '']].
    The elements of the array literal are evaluated from left to right. *)
Definition transform_row (row : value) : completion value :=
  c0 ← get row "0";
  c1 ← get row "2";
  c2 ← get row "1";
  c3 ← get row "3";
  c4 ← get row "3";
  mret (VArr [or c0 (VStr ""); or c1 (VStr ""); or c2 (VStr "");
              or c3 (VStr ""); or c4 (VStr "")]).

(** [rows.map(f)]: [f] is called on the elements in order, and the first
    exception ends the loop. *)
Fixpoint array_map (f : value → completion value) (rows : list value)
  : completion (list value) :=
  match rows with
  | [] => mret []
  | row :: rest =>
      r ← f row;
      rs ← array_map f rest;
      mret (r :: rs)
  end.

(** *** The relay row, as the specification words it *)

(** A cell of the relay row: the upstream cell at [i], or the empty string
    when there is none or it is falsy. *)
Definition cell_or_empty (cells : list value) (i : nat) : value :=
  match cells !! i with
  | Some v => if truthy v then v else VStr ""
  | None => VStr ""
  end.

Definition relay_row (cells : list value) : list value :=
  [cell_or_empty cells 0; cell_or_empty cells 2; cell_or_empty cells 1;
   cell_or_empty cells 3; cell_or_empty cells 3].

(** ** The runtime *)

(** What the Apps Script answers: a status line, and the outcome of
    [await response.json()], which throws when the body is not JSON. *)
Record response : Type := {
  status : Z;
  statusText : string;
  json : completion value
}.

(** [response.ok] *)
Definition ok (r : response) : bool := (200 <=? status r) && (status r <=? 299).

(** A handler is a tree of requests to the runtime: it ends with a result or
    an uncaught exception, reads the clock ([Date.now()], [new Date()]), or
    awaits [fetch(url, ...)], whose promise rejects when the server cannot be
    reached in time. *)
Inductive io (A : Type) : Type :=
| Ret (a : A)
| Throw (e : exn)
| Clock (k : Z → io A)
| Fetch (url : string) (k : completion response → io A).
Arguments Ret {A} a.
Arguments Throw {A} e.
Arguments Clock {A} k.
Arguments Fetch {A} url k.

Fixpoint io_bind {A B} (f : A → io B) (p : io A) : io B :=
  match p with
  | Ret a => f a
  | Throw e => Throw e
  | Clock k => Clock (λ t, io_bind f (k t))
  | Fetch url k => Fetch url (λ r, io_bind f (k r))
  end.

#[global] Instance io_ret : MRet io := @Ret.
#[global] Instance io_mbind : MBind io := @io_bind.

(** [try { body } catch (error) { handler }] *)
Fixpoint try_catch {A} (body : io A) (handler : exn → io A) : io A :=
  match body with
  | Ret a => Ret a
  | Throw e => handler e
  | Clock k => Clock (λ t, try_catch (k t) handler)
  | Fetch url k => Fetch url (λ r, try_catch (k r) handler)
  end.

Definition eval {A} (c : completion A) : io A :=
  match c with Normal a => Ret a | Thrown e => Throw e end.

Definition now : io Z := Clock Ret.

Definition fetch (url : string) : io response := Fetch url eval.

(** The world a request runs in: the successive readings of the system
    clock, and what fetching a URL gives. *)
Record world : Type := {
  clock : nat → Z;
  upstream : string → completion response
}.

(** [exec w reads p] runs [p] in [w], [reads] being the number of clock
    readings made before; it gives the outcome of [p] and the number of clock
    readings made after. *)
Fixpoint exec {A} (w : world) (reads : nat) (p : io A) : completion A * nat :=
  match p with
  | Ret a => (Normal a, reads)
  | Throw e => (Thrown e, reads)
  | Clock k => exec w (S reads) (k (clock w reads))
  | Fetch url k => exec w reads (k (upstream w url))
  end.

Definition run {A} (w : world) (p : io A) : completion A := fst (exec w 0 p).

(** A program that never awaits [fetch]. *)
Inductive offline {A} : io A → Prop :=
| offline_ret a : offline (Ret a)
| offline_throw e : offline (Throw e)
| offline_clock k : (∀ t, offline (k t)) → offline (Clock k).

(** ** The server *)

(** What [res.status(code).json(body)] sends; [body] is the object given to
    [res.json]. *)
Record reply : Type := {
  code : Z;
  body : value
}.

Definition default_script : string :=
  "https://script.google.com/macros/s/AKfycbyGjV5K1XehVSTTttFtMQv2S5rQa8ri-g1uXaGquovQa_hCRAy8iL6Xwv0bLRvwyN1McA/exec".

(** [process.env.PIF_AI_APPS_SCRIPT || "https://..."] *)
Definition PIF_AI_APPS_SCRIPT (env : option string) : string :=
  match env with
  | Some (String c url) => String c url
  | Some EmptyString | None => default_script
  end.

Section routes.

Variable script : string.

(** [app.get("/", ...)] *)
Definition root : io reply :=
  t ← now;
  mret {| code := 200;
          body := VObj [("status", VStr "ok");
                        ("timestamp", VStr (Date.toISOString t));
                        ("message", VStr "PIF+AI Lookup Relay - Active");
                        ("service", VStr "PIF+AI Sheet Data Provider");
                        ("endpoints",
                          VObj [("health", VStr "GET /health");
                                ("fetchPIF", VStr "GET /fetch-pif")])] |}.

(** [app.get("/health", ...)] *)
Definition health : io reply :=
  t ← now;
  mret {| code := 200;
          body := VObj [("status", VStr "ok");
                        ("service", VStr "PIF+AI Lookup Relay");
                        ("timestamp", VStr (Date.toISOString t))] |}.

(** [result.data.map(row => ...)] *)
Definition map_rows (data : value) : completion (list value) :=
  match data with
  | VArr rows => array_map transform_row rows
  | VUndefined | VNull =>
      Thrown (TypeError ("Cannot read properties of " +:+ type_name data +:+
                         " (reading 'map')"))
  | _ => Thrown (TypeError "result.data.map is not a function")
  end.

(** The [try] block of [/fetch-pif].  The calls to [console.log] are left
    out: they write to the standard output, and evaluating their arguments
    ([result.data[0]], [transformedData[0][1]] and the like, each under a
    [length > 0] test) throws nothing. *)
Definition fetch_pif_try (startTime : Z) : io reply :=
  response ← fetch (script +:+ "?action=fetchPIF");
  if negb (ok response) then
    Throw (Error ("Apps Script returned " +:+ pretty (status response) +:+ ": " +:+
                  statusText response))
  else
  result ← eval (json response);
  success ← eval (get result "success");
  if negb (truthy success) then
    error ← eval (get result "error");
    Throw (Error (ToString (or error (VStr "Apps Script returned success: false"))))
  else
  data ← eval (get result "data");
  if negb (truthy data) || negb (isArray data) then
    Throw (Error "Invalid data format from Apps Script")
  else
  transformedData ← eval (map_rows data);
  finished ← now;
  let elapsed := finished - startTime in
  stamp ← now;
  mret {| code := 200;
          body := VObj [("success", VBool true);
                        ("data", VArr transformedData);
                        ("count", number (length transformedData));
                        ("source", VStr "PIF+AI Google Sheet");
                        ("timestamp", VStr (Date.toISOString stamp));
                        ("elapsed", VStr (pretty elapsed +:+ "ms"))] |}.

Definition fetch_pif_catch (startTime : Z) (error : exn) : io reply :=
  finished ← now;
  let elapsed := finished - startTime in
  stamp ← now;
  mret {| code := 500;
          body := VObj [("success", VBool false);
                        ("error", VStr (message error));
                        ("timestamp", VStr (Date.toISOString stamp));
                        ("elapsed", VStr (pretty elapsed +:+ "ms"))] |}.

(** [app.get("/fetch-pif", ...)] *)
Definition fetch_pif : io reply :=
  startTime ← now;
  try_catch (fetch_pif_try startTime) (fetch_pif_catch startTime).

(** [v?.length] and [v?.slice(0, 5)] *)
Definition optional_length (v : value) : completion value :=
  if nullish v then Normal VUndefined else get v "length".

Definition optional_slice (v : value) : completion value :=
  if nullish v then Normal VUndefined else slice_to 5 "result.data?.slice" v.

(** The [try] block of [/fetch-pif-raw].  The argument of its [console.log],
    a template literal over [result.data?.length || 0], is evaluated for the
    exception it can throw. *)
Definition fetch_pif_raw_try : io reply :=
  response ← fetch (script +:+ "?action=fetchPIF");
  if negb (ok response) then
    Throw (Error ("Apps Script returned " +:+ pretty (status response)))
  else
  result ← eval (json response);
  logged ← eval (data ← get result "data"; optional_length data);
  success ← eval (get result "success");
  count ← eval (data ← get result "data"; n ← optional_length data;
                mret (or n (number 0)));
  sample ← eval (data ← get result "data"; rows ← optional_slice data;
                 mret (or rows (VArr [])));
  fullData ← eval (data ← get result "data"; mret (or data (VArr [])));
  mret {| code := 200;
          body := VObj [("success", success);
                        ("count", count);
                        ("sample", sample);
                        ("fullData", fullData)] |}.

Definition fetch_pif_raw_catch (error : exn) : io reply :=
  mret {| code := 500;
          body := VObj [("success", VBool false);
                        ("error", VStr (message error))] |}.

(** [app.get("/fetch-pif-raw", ...)] *)
Definition fetch_pif_raw : io reply :=
  try_catch fetch_pif_raw_try fetch_pif_raw_catch.

(** The GET routes. *)
Inductive route : Type := Root | Health | FetchPif | FetchPifRaw.

Definition handler (r : route) : io reply :=
  match r with
  | Root => root
  | Health => health
  | FetchPif => fetch_pif
  | FetchPifRaw => fetch_pif_raw
  end.

End routes.

(** The reply to a GET request, for a server started with the environment
    variable [PIF_AI_APPS_SCRIPT] set to [env] (or unset). *)
Definition serve (env : option string) (w : world) (r : route) : completion reply :=
  run w (handler (PIF_AI_APPS_SCRIPT env) r).

(** [field name r]: the property [name] of the body of [r], if it has one. *)
Definition field (name : string) (r : reply) : option value :=
  match body r with
  | VObj props => own_property name props
  | _ => None
  end.

(** ** The replies, as the specification words them *)

(** The URL both data routes fetch. *)
Definition request_url (env : option string) : string :=
  PIF_AI_APPS_SCRIPT env +:+ "?action=fetchPIF".

(** A handler of [/fetch-pif] reads the clock three times: at the start, when
    it stops the watch, and for the timestamp. *)
Definition elapsed (w : world) : string := pretty (clock w 1 - clock w 0) +:+ "ms".
Definition timestamp (w : world) : string := Date.toISOString (clock w 2).

(** [RelayResponse{success:true, data, count:data.length, source, timestamp,
    elapsed}] with HTTP 200 *)
Definition relay_success (w : world) (data : list value) : reply :=
  {| code := 200;
     body := VObj [("success", VBool true);
                   ("data", VArr data);
                   ("count", number (length data));
                   ("source", VStr "PIF+AI Google Sheet");
                   ("timestamp", VStr (timestamp w));
                   ("elapsed", VStr (elapsed w))] |}.

(** [RelayResponse{success:false, error, timestamp, elapsed}] with HTTP 500 *)
Definition relay_failure (w : world) (error : string) : reply :=
  {| code := 500;
     body := VObj [("success", VBool false);
                   ("error", VStr error);
                   ("timestamp", VStr (timestamp w));
                   ("elapsed", VStr (elapsed w))] |}.

(** [{success, count, sample, fullData}] with HTTP 200 *)
Definition raw_success (success : value) (rows : list value) : reply :=
  {| code := 200;
     body := VObj [("success", success);
                   ("count", number (length rows));
                   ("sample", VArr (take 5 rows));
                   ("fullData", VArr rows)] |}.

(** [{success:false, error}] with HTTP 500 *)
Definition raw_failure (error : string) : reply :=
  {| code := 500;
     body := VObj [("success", VBool false); ("error", VStr error)] |}.

(** The rows of a [data] field: those of the array, none when the field is
    absent or [null]. *)
Definition rows_of (data : value) : option (list value) :=
  match data with
  | VArr rows => Some rows
  | VUndefined | VNull => Some []
  | _ => None
  end.

(** The format errors of [/fetch-pif], with their messages: an envelope with
    [success] false fails with the message it carries, or with a generic one
    when it carries none; an envelope whose [data] is missing or not an array
    fails with an invalid-format message. *)
Inductive format_error (result : value) : string → Prop :=
| upstream_message msg :
    get result "success" = Normal (VBool false) →
    get result "error" = Normal (VStr msg) → msg ≠ "" →
    format_error result msg
| generic_message :
    get result "success" = Normal (VBool false) →
    get result "error" = Normal VUndefined →
    format_error result "Apps Script returned success: false"
| data_missing :
    get result "success" = Normal (VBool true) →
    get result "data" = Normal VUndefined →
    format_error result "Invalid data format from Apps Script"
| data_not_array data :
    get result "success" = Normal (VBool true) →
    get result "data" = Normal data → isArray data = false →
    format_error result "Invalid data format from Apps Script".

(** *** Sample worlds *)

(** A clock that starts on 2023-11-14T22:13:20Z and advances by 7 ms between
    two readings, and an upstream that gives [u] whatever the URL. *)
Definition sample_world (u : completion response) : world :=
  {| clock := λ i, 1700000000000 + 7 * Z.of_nat i; upstream := λ _, u |}.

Definition answers (code : Z) (text : string) (v : value) : completion response :=
  Normal {| status := code; statusText := text; json := Normal v |}.

Definition envelope (success data : value) : value :=
  VObj [("success", success); ("data", data)].

(** [{success:true, data:[["x","SYM","Name","4.5"]]}] *)
Definition one_row : value :=
  envelope (VBool true) (VArr [VArr [VStr "x"; VStr "SYM"; VStr "Name"; VStr "4.5"]]).

(** [{success:true, data:[]}] *)
Definition no_rows : value := envelope (VBool true) (VArr []).

(** [{success:true, data:[null]}] *)
Definition null_row : value := envelope (VBool true) (VArr [VNull]).

(** [{success:true, data:{}}] *)
Definition data_is_an_object : value := envelope (VBool true) (VObj []).

(** [{success:true, data:"not-an-array"}] *)
Definition data_is_a_string : value := envelope (VBool true) (VStr "not-an-array").

(** [{success:false, error:"quota exceeded"}] *)
Definition quota_exceeded : value :=
  VObj [("success", VBool false); ("error", VStr "quota exceeded")].

(** The Apps Script does not answer within the 20 seconds given to [fetch]. *)
Definition timed_out : completion response :=
  Thrown (FetchError ("network timeout at: " +:+ request_url None)).

(** ** The requests a handler makes *)

(** The URLs [p] fetches when it runs in [w], in order. *)
Fixpoint requests {A} (w : world) (reads : nat) (p : io A) : list string :=
  match p with
  | Ret _ | Throw _ => []
  | Clock k => requests w (S reads) (k (clock w reads))
  | Fetch url k => url :: requests w reads (k (upstream w url))
  end.

(** ** The middleware *)

(** What a middleware does with a request: it ends it with
    [res.sendStatus(status)], or passes it on with [next()]. *)
Inductive passage : Type :=
| Ended (status : Z)
| Passed.

(** The middleware registered with [app.use((req, res, next) => ...)], on a
    request with method [method] and a response that carries the headers
    [h]: [res.header(name, value)] sets a header, replacing the value it
    had. *)
Definition cors (method : string) (h : gmap string string)
  : gmap string string * passage :=
  let h := <["Access-Control-Allow-Origin" := "*"]> h in
  let h := <["Access-Control-Allow-Methods" := "GET, POST, OPTIONS"]> h in
  let h := <["Access-Control-Allow-Headers" := "Content-Type"]> h in
  if String.eqb method "OPTIONS" then (h, Ended 200) else (h, Passed).

(** How this file answers a request: with a bare status, with the reply of
    a route, or not at all when no route is registered for it, which leaves
    the answer to Express. *)
Inductive answer : Type :=
| Status (code : Z)
| Replied (r : reply)
| Unrouted.

(** The application on a request without a body (which [express.json()]
    passes on untouched): the middleware, then the handler of the route
    that Express matched with the method and the path of the request, if
    there is one. *)
Definition app (script method : string) (matched : option route)
    (h : gmap string string) : io (gmap string string * answer) :=
  match cors method h with
  | (h', Ended status) => mret (h', Status status)
  | (h', Passed) =>
      match matched with
      | Some r => rep ← handler script r; mret (h', Replied rep)
      | None => mret (h', Unrouted)
      end
  end.

(** *** Rows that are not arrays *)

(** The character of [s] at [i] as a string, or the empty string past the
    end. *)
Definition char_or_empty (s : string) (i : nat) : value :=
  match String.get i s with
  | Some c => VStr (String c EmptyString)
  | None => VStr ""
  end.

(** An array of exactly five cells whose last two cells are equal. *)
Definition five_cells (row : value) : Prop :=
  ∃ c0 c1 c2 c3, row = VArr [c0; c1; c2; c3; c3].

(** *** More sample payloads *)


(** [{success:true, data:[["x","SYM","Name","4.5"], null]}] *)
Definition null_after_row : value :=
  envelope (VBool true)
    (VArr [VArr [VStr "x"; VStr "SYM"; VStr "Name"; VStr "4.5"]; VNull]).

(** [{success:"false", data:[["x","SYM","Name","4.5"]]}] *)
Definition success_is_a_string : value :=
  envelope (VStr "false") (VArr [VArr [VStr "x"; VStr "SYM"; VStr "Name"; VStr "4.5"]]).


(** [[["x","SYM","Name","4.5"]]], rows without an envelope *)
Definition bare_rows : value :=
  VArr [VArr [VStr "x"; VStr "SYM"; VStr "Name"; VStr "4.5"]].

(** An answer with an OK status whose body is not JSON. *)
Definition html_page : completion response :=
  Normal {| status := 200; statusText := "OK";
            json := Thrown (FetchError "invalid json response body") |}.

(** * Properties *)

(** ** Timestamps are well formed *)

Module DateFacts.
Import Date.

Lemma append_cons c (a b : string) : String c a +:+ b = String c (a +:+ b).
Proof. reflexivity. Qed.

Lemma append_assoc (a b c : string) : (a +:+ b) +:+ c = a +:+ (b +:+ c).
Proof. induction a as [|x a IH]; [reflexivity|]. rewrite !append_cons. by rewrite IH. Qed.

Lemma append_nil_l (a : string) : "" +:+ a = a.
Proof. reflexivity. Qed.

Ltac flatten_append := repeat (rewrite append_assoc || rewrite append_cons || rewrite append_nil_l).

Lemma digit_value_digit (d : Z) : 0 <= d < 10 → digit_value (digit d) = Some d.
Proof.
  intros H.
  assert (d = 0 ∨ d = 1 ∨ d = 2 ∨ d = 3 ∨ d = 4 ∨ d = 5 ∨ d = 6 ∨ d = 7 ∨
          d = 8 ∨ d = 9) as Hd by lia.
  repeat destruct Hd as [-> | Hd]; try subst d; reflexivity.
Qed.

Lemma read_number_app (w1 w2 : nat) : ∀ acc s,
  read_number (w1 + w2) acc s =
  match read_number w1 acc s with
  | Some (a, s') => read_number w2 a s'
  | None => None
  end.
Proof.
  induction w1 as [|w1 IH]; intros acc s; [reflexivity|].
  cbn. destruct s as [|c s]; [reflexivity|].
  destruct (digit_value c); [apply IH | reflexivity].
Qed.

Lemma read_number_digits (w : nat) : ∀ (n acc : Z) (s : string),
  0 <= n < 10 ^ Z.of_nat w →
  read_number w acc (digits w n +:+ s) = Some (acc * 10 ^ Z.of_nat w + n, s).
Proof.
  induction w as [|w IH]; intros n acc s Hn.
  - cbn. f_equal. f_equal. cbn in Hn. lia.
  - replace (S w) with (w + 1)%nat at 1 by lia.
    rewrite read_number_app. cbn [digits]. rewrite append_assoc, append_cons.
    assert (10 ^ Z.of_nat (S w) = 10 * 10 ^ Z.of_nat w) as Hpow.
    { rewrite Nat2Z.inj_succ, Z.pow_succ_r; lia. }
    rewrite IH by (split; [apply Z.div_pos; lia | apply Z.div_lt_upper_bound; lia]).
    cbn [read_number]. rewrite digit_value_digit by (apply Z.mod_pos_bound; lia).
    unfold String.append. f_equal. f_equal.
    rewrite Hpow. pose proof (Z.div_mod n 10). lia.
Qed.

Lemma matches_num fmt (w : nat) lo hi n s :
  0 <= n < 10 ^ Z.of_nat w → lo <= n <= hi →
  matches (Num w lo hi :: fmt) (digits w n +:+ s) = matches fmt s.
Proof.
  intros Hn Hr. cbn [matches]. rewrite read_number_digits by done.
  replace (0 * 10 ^ Z.of_nat w + n) with n by lia.
  destruct (Z.leb_spec lo n); [|lia]. destruct (Z.leb_spec n hi); [|lia]. reflexivity.
Qed.

Lemma matches_lit fmt c (s : string) :
  matches (Lit c :: fmt) (String c s) = matches fmt s.
Proof. cbn [matches]. by rewrite Ascii.eqb_refl. Qed.

(** The calendar fields are in range. *)
Lemma civil_range (day : Z) :
  let '(y, m, d) := civil day in
  1 <= m <= 12 ∧ 1 <= d <= 31 ∧
  (day + 719468) / 146097 * 400 <= y <= (day + 719468) / 146097 * 400 + 400.
Proof.
  unfold civil.
  set (z := day + 719468). set (doe := z mod 146097).
  assert (0 <= doe < 146097) as Hdoe by (apply Z.mod_pos_bound; lia).
  clearbody doe.
  set (yoe := (doe - doe / 1460 + doe / 36524 - doe / 146096) / 365).
  set (doy := doe - (365 * yoe + yoe / 4 - yoe / 100)).
  set (mp := (5 * doy + 2) / 153).
  assert (0 <= yoe <= 399 ∧ 0 <= doy <= 365) as [Hyoe Hdoy].
  { subst doy yoe. Z.to_euclidean_division_equations; lia. }
  clearbody yoe doy.
  assert (0 <= mp <= 11 ∧ 1 <= doy - (153 * mp + 2) / 5 + 1 <= 31) as [Hmp Hd].
  { subst mp. Z.to_euclidean_division_equations; lia. }
  clearbody mp.
  destruct (Z.ltb_spec mp 10); (split; [lia|]); (split; [lia|]);
    case_match; lia.
Qed.

Lemma digits_head (w : nat) (n : Z) :
  ∃ d rest, 0 <= d < 10 ∧ digits (S w) n = String (digit d) rest.
Proof.
  revert n. induction w as [|w IH]; intros n.
  - exists (n mod 10), "". split; [apply Z.mod_pos_bound; lia | reflexivity].
  - destruct (IH (n / 10)) as (d & rest & Hd & Heq).
    exists d, (rest +:+ String (digit (n mod 10)) "").
    split; [done|]. change (digits (S (S w)) n)
      with (digits (S w) (n / 10) +:+ String (digit (n mod 10)) "").
    by rewrite Heq.
Qed.

Lemma iso8601_unsigned (d : Z) (rest : string) :
  0 <= d < 10 →
  iso8601 (String (digit d) rest)
  = matches (Num 4 0 9999 :: after_year) (String (digit d) rest).
Proof.
  intros H.
  assert (d = 0 ∨ d = 1 ∨ d = 2 ∨ d = 3 ∨ d = 4 ∨ d = 5 ∨ d = 6 ∨ d = 7 ∨
          d = 8 ∨ d = 9) as Hd by lia.
  repeat destruct Hd as [-> | Hd]; try subst d; reflexivity.
Qed.

Lemma iso8601_year (y : Z) (s : string) :
  -999999 <= y <= 999999 →
  iso8601 (year_string y +:+ s) = matches after_year s.
Proof.
  intros Hy. unfold year_string.
  destruct (Z.leb_spec 0 y); [destruct (Z.leb_spec y 9999)|]; cbn [andb].
  - destruct (digits_head 3 y) as (d & rest & Hd & Heq).
    rewrite Heq, append_cons, iso8601_unsigned, <- append_cons, <- Heq by done.
    apply matches_num; cbn; lia.
  - destruct (Z.ltb_spec y 0); [lia|]. flatten_append.
    change (iso8601 (String "+" ?s)) with (matches (Num 6 0 999999 :: after_year) s).
    apply matches_num; cbn; lia.
  - destruct (Z.ltb_spec y 0); [|lia]. flatten_append.
    change (iso8601 (String "-" ?s)) with (matches (Num 6 0 999999 :: after_year) s).
    apply matches_num; cbn; lia.
Qed.

Lemma toISOString_iso8601 (t : Z) : valid_time t → iso8601 (toISOString t) = true.
Proof.
  intros [Hlo Hhi]. unfold maxTime in *. unfold toISOString, msPerDay.
  pose proof (civil_range (t / 86400000)) as Hc.
  destruct (civil (t / 86400000)) as [[y m] d]. destruct Hc as (Hm & Hd & Hy).
  assert (0 <= t mod 86400000 < 86400000) as Hms by (apply Z.mod_pos_bound; lia).
  set (ms := t mod 86400000) in *. clearbody ms.
  assert (-100000000 <= t / 86400000 <= 100000000) as Hday.
  { split; [apply Z.div_le_lower_bound | apply Z.div_le_upper_bound]; lia. }
  rewrite iso8601_year.
  2:{ revert Hy. Z.to_euclidean_division_equations; lia. }
  unfold after_year. flatten_append.
  rewrite matches_lit, matches_num by (cbn; lia). flatten_append.
  rewrite matches_lit, matches_num by (cbn; lia). flatten_append.
  rewrite matches_lit, matches_num.
  2,3: (cbn; Z.to_euclidean_division_equations; lia). flatten_append.
  rewrite matches_lit, matches_num.
  2,3: (cbn; Z.to_euclidean_division_equations; lia). flatten_append.
  rewrite matches_lit, matches_num.
  2,3: (cbn; Z.to_euclidean_division_equations; lia). flatten_append.
  rewrite matches_lit, matches_num.
  2,3: (cbn; Z.to_euclidean_division_equations; lia).
  reflexivity.
Qed.
End DateFacts.

(** ** Lengths as numbers

    [number n] rounds [n] to a double; whatever [n], the double is zero only
    when [n] is, so that [length || 0] is the length. *)

Module NumberFacts.

Lemma shr_1_div2 (s : shr_record) :
  0 <= shr_m s → shr_m (shr_1 s) = shr_m s / 2 ∧ 0 <= shr_m (shr_1 s).
Proof.
  destruct s as [m r t]. cbn [shr_m]. intros Hm.
  destruct m as [|p|p]; [done | | lia].
  destruct p as [p|p|]; cbn [shr_1 shr_m]; [| |done].
  - rewrite Pos2Z.inj_xI. split; [|lia]. apply Z.div_unique with 1; lia.
  - rewrite Pos2Z.inj_xO. split; [|lia]. apply Z.div_unique with 0; lia.
Qed.

Lemma iter_shr_1_div (p : positive) : ∀ s : shr_record,
  0 <= shr_m s →
  shr_m (SpecFloat.iter_pos shr_1 p s) = shr_m s / 2 ^ Z.pos p ∧ 0 <= shr_m (SpecFloat.iter_pos shr_1 p s).
Proof.
  induction p as [p IH | p IH |]; intros s Hs; cbn [SpecFloat.iter_pos].
  - destruct (shr_1_div2 s Hs) as [E1 P1].
    destruct (IH _ P1) as [E2 P2]. destruct (IH _ P2) as [E3 P3].
    split; [|done]. rewrite E3, E2, E1, Pos2Z.inj_xI.
    rewrite !Z.div_div by lia. f_equal.
    rewrite <- Z.pow_add_r, <- (Z.pow_1_r 2) at 1 by lia.
    rewrite <- Z.pow_add_r by lia. f_equal. lia.
  - destruct (IH _ Hs) as [E2 P2]. destruct (IH _ P2) as [E3 P3].
    split; [|done]. rewrite E3, E2, Pos2Z.inj_xO.
    rewrite !Z.div_div by lia. f_equal.
    rewrite <- Z.pow_add_r by lia. f_equal. lia.
  - destruct (shr_1_div2 s Hs) as [E1 P1]. split; [|done]. by rewrite E1.
Qed.

Lemma digits2_pos_bound (p : positive) : 2 ^ (Z.pos (digits2_pos p) - 1) <= Z.pos p.
Proof.
  induction p as [p IH | p IH |]; cbn [digits2_pos]; [| |done].
  - rewrite Pos2Z.inj_succ, (Pos2Z.inj_xI p).
    replace (Z.succ (Z.pos (digits2_pos p)) - 1) with (Z.succ (Z.pos (digits2_pos p) - 1)) by lia.
    rewrite Z.pow_succ_r by lia. set (x := 2 ^ _) in *. clearbody x. lia.
  - rewrite Pos2Z.inj_succ, (Pos2Z.inj_xO p).
    replace (Z.succ (Z.pos (digits2_pos p)) - 1) with (Z.succ (Z.pos (digits2_pos p) - 1)) by lia.
    rewrite Z.pow_succ_r by lia. set (x := 2 ^ _) in *. clearbody x. lia.
Qed.

Lemma shr_fexp_positive (m : positive) (e : Z) (l : location) :
  -1000 <= e →
  0 < shr_m (fst (shr_fexp 53 1024 (Z.pos m) e l)) ∧ e <= snd (shr_fexp 53 1024 (Z.pos m) e l).
Proof.
  intros He. unfold shr_fexp, fexp, emin, Zdigits2.
  pose proof (digits2_pos_bound m) as Hd.
  set (d := Z.pos (digits2_pos m)) in *.
  assert (0 < d) as Hdpos by (subst d; lia).
  replace (Z.max (d + e - 53) (3 - 1024 - 53) - e) with (d - 53) by lia.
  assert (shr_m (shr_record_of_loc (Z.pos m) l) = Z.pos m) as Hrec
    by (destruct l as [|[]]; reflexivity).
  unfold shr. destruct (d - 53) as [|k|k] eqn:Hk; cbn [fst snd]; rewrite ?Hrec; try lia.
  destruct (iter_shr_1_div k (shr_record_of_loc (Z.pos m) l)) as [E _]; [rewrite Hrec; lia|].
  rewrite E, Hrec. split; [|lia].
  apply Z.div_str_pos. split; [lia|].
  etrans; [|exact Hd]. apply Z.pow_le_mono_r; lia.
Qed.

Lemma binary_round_aux_nonzero (m : positive) (e : Z) :
  -1000 <= e →
  match binary_round_aux 53 1024 false (Z.pos m) e loc_Exact with
  | S754_finite _ _ _ | S754_infinity _ => True
  | _ => False
  end.
Proof.
  intros He. unfold binary_round_aux.
  destruct (shr_fexp_positive m e loc_Exact He) as [H1 H1'].
  destruct (shr_fexp 53 1024 (Z.pos m) e loc_Exact) as [mrs' e']. cbn [fst snd] in *.
  assert (0 < round_nearest_even (shr_m mrs') (loc_of_shr_record mrs')) as H2.
  { unfold round_nearest_even. repeat case_match; lia. }
  destruct (round_nearest_even _ _) as [|m2|m2]; try lia.
  destruct (shr_fexp_positive m2 e' loc_Exact ltac:(lia)) as [H3 _].
  destruct (shr_fexp 53 1024 (Z.pos m2) e' loc_Exact) as [mrs'' e'']. cbn [fst] in *.
  destruct (shr_m mrs''); try lia. by destruct (e'' <=? _).
Qed.

Lemma number_truthy (n : nat) : truthy (number n) = negb (Nat.eqb n 0).
Proof.
  destruct n as [|n]; [reflexivity|]. unfold number, binary_normalize.
  rewrite Nat2Z.inj_succ, <- Zpos_P_of_succ_nat.
  set (p := Pos.of_succ_nat n). unfold binary_round.
  destruct (shl_align p 0 _) as [mz ez] eqn:Hal.
  assert (-1000 <= ez) as Hez.
  { revert Hal. unfold shl_align, fexp, emin. case_match; intros [= <- <-]; lia. }
  pose proof (binary_round_aux_nonzero mz ez Hez).
  by destruct (binary_round_aux _ _ _ _ _ _).
Qed.

Lemma or_number (n : nat) : or (number n) (number 0) = number n.
Proof.
  unfold or. rewrite number_truthy. by destruct n.
Qed.

End NumberFacts.

(** ** Running a handler *)

Section exec_facts.
Context {A B : Type} (w : world).

Lemma exec_bind (f : A → io B) (p : io A) (n : nat) :
  exec w n (p ≫= f) =
  match exec w n p with
  | (Normal a, n') => exec w n' (f a)
  | (Thrown e, n') => (Thrown e, n')
  end.
Proof.
  revert n. induction p as [a | e | k IH | url k IH]; intros n; cbn; auto.
Qed.

Lemma exec_try_catch (p : io A) (h : exn → io A) (n : nat) :
  exec w n (try_catch p h) =
  match exec w n p with
  | (Normal a, n') => (Normal a, n')
  | (Thrown e, n') => exec w n' (h e)
  end.
Proof.
  revert n. induction p as [a | e | k IH | url k IH]; intros n; cbn; auto.
Qed.

Lemma exec_eval (c : completion A) (n : nat) : exec w n (eval c) = (c, n).
Proof. by destruct c. Qed.

Lemma exec_ret (a : A) (n : nat) : exec w n (mret a) = (Normal a, n).
Proof. reflexivity. Qed.

Lemma exec_throw (e : exn) (n : nat) : exec w n (Throw e : io A) = (Thrown e, n).
Proof. reflexivity. Qed.
End exec_facts.

Lemma exec_now (w : world) (n : nat) : exec w n now = (Normal (clock w n), S n).
Proof. reflexivity. Qed.

Lemma exec_fetch (w : world) (url : string) (n : nat) :
  exec w n (fetch url) = (upstream w url, n).
Proof. unfold fetch. cbn. apply exec_eval. Qed.

(** ** The column transform *)

Lemma get_array (cells : list value) (key : string) (i : nat) :
  String.eqb key "length" = false → array_index key = Some i →
  get (VArr cells) key = Normal (default VUndefined (cells !! i)).
Proof. intros Hkey Hi. unfold get. by rewrite Hkey, Hi. Qed.

Lemma bind_normal {A B} (a : A) (f : A → completion B) : Normal a ≫= f = f a.
Proof. reflexivity. Qed.

Lemma transform_row_array (cells : list value) :
  transform_row (VArr cells) = Normal (VArr (relay_row cells)).
Proof.
  unfold transform_row.
  rewrite (get_array cells "0" 0), (get_array cells "1" 1),
    (get_array cells "2" 2), (get_array cells "3" 3) by reflexivity.
  rewrite !bind_normal. unfold relay_row, cell_or_empty, or.
  repeat match goal with |- context [cells !! ?i] => destruct (cells !! i) end;
    reflexivity.
Qed.

(** A row that is not [null] is transformed into five cells, whatever it is:
    an array, a string, a number or an object. *)
Lemma transform_row_defined (row : value) :
  nullish row = false →
  ∃ c0 c1 c2 c3, transform_row row = Normal (VArr [c0; c1; c2; c3; c3]).
Proof.
  intros Hrow. unfold transform_row.
  assert (∀ key, ∃ c, get row key = Normal c) as Hget.
  { intros key. destruct row; try discriminate; unfold get; eauto;
      repeat case_match; eauto. }
  destruct (Hget "0") as [c0 ->], (Hget "2") as [c1 ->], (Hget "1") as [c2 ->],
    (Hget "3") as [c3 ->].
  rewrite !bind_normal. eauto.
Qed.

Lemma transform_row_null (row : value) :
  nullish row = true → ∃ e, transform_row row = Thrown e.
Proof. destruct row; try discriminate; intros _; eexists; reflexivity. Qed.

Lemma array_map_defined (rows : list value) :
  Forall (λ row, nullish row = false) rows →
  ∃ out, array_map transform_row rows = Normal out ∧
         Forall2 (λ row r, transform_row row = Normal r) rows out.
Proof.
  induction 1 as [|row rows Hrow _ (out & IH & Hall)].
  - exists []. split; [reflexivity | constructor].
  - destruct (transform_row_defined row Hrow) as (c0 & c1 & c2 & c3 & Heq).
    exists (VArr [c0; c1; c2; c3; c3] :: out). cbn [array_map].
    rewrite Heq, bind_normal, IH, bind_normal. split; [reflexivity|].
    by constructor.
Qed.

Lemma array_map_null (rows : list value) :
  Exists (λ row, nullish row = true) rows →
  ∃ e, array_map transform_row rows = Thrown e.
Proof.
  induction 1 as [row rows Hrow | row rows _ [e IH]]; cbn [array_map].
  - destruct (transform_row_null row Hrow) as [e ->]. by exists e.
  - destruct (transform_row row) as [r|e']; [|by exists e'].
    rewrite bind_normal, IH. by exists e.
Qed.

Lemma array_map_arrays (rows : list (list value)) :
  array_map transform_row (VArr <$> rows) = Normal (VArr ∘ relay_row <$> rows).
Proof.
  induction rows as [|cells rows IH]; [reflexivity|].
  cbn [fmap list_fmap array_map]. rewrite transform_row_array, bind_normal.
  change (list_fmap _ _ VArr rows) with (VArr <$> rows).
  by rewrite IH.
Qed.

(** C1: for every upstream row, the relay row of [/fetch-pif] is
    [[r[0]||'', r[2]||'', r[1]||'', r[3]||'', r[3]||'']]: cell 0 of the
    output is cell 0 of the input, cell 1 is input cell 2, cell 2 is input
    cell 1, cells 3 and 4 are both input cell 3, a falsy (or missing) cell
    being replaced by the empty string; so cells 3 and 4 of every relay row
    are equal. *)
Theorem relay_row_remap (cells : list value) (rows : list (list value)) :
  transform_row (VArr cells)
  = Normal (VArr [cell_or_empty cells 0; cell_or_empty cells 2;
                  cell_or_empty cells 1; cell_or_empty cells 3;
                  cell_or_empty cells 3])
  ∧ relay_row cells !! 3%nat = relay_row cells !! 4%nat
  ∧ array_map transform_row (VArr <$> rows) = Normal (VArr ∘ relay_row <$> rows).
Proof.
  split; [apply transform_row_array|]. split; [reflexivity|].
  apply array_map_arrays.
Qed.

(** C9: a row of any length, shorter than four cells or empty, is
    transformed without an error into exactly five cells; a cell read past
    the end of the row is the empty string. *)
Theorem relay_row_total (cells : list value) :
  ∃ out, transform_row (VArr cells) = Normal (VArr out)
       ∧ length out = 5%nat
       ∧ out = relay_row cells
       ∧ ∀ k, cell_or_empty cells (length cells + k) = VStr "".
Proof.
  exists (relay_row cells). split; [apply transform_row_array|].
  repeat split. intros k. unfold cell_or_empty.
  by rewrite lookup_ge_None_2 by lia.
Qed.

(** ** The routes *)

Ltac exec_step :=
  first [ rewrite exec_bind | rewrite exec_try_catch | rewrite exec_eval
        | rewrite exec_now | rewrite exec_fetch | rewrite exec_ret
        | rewrite exec_throw | rewrite bind_normal ];
  cbv beta iota.

Ltac exec_steps := repeat exec_step.

Lemma ok_spec (r : response) : ok r = true ↔ 200 <= status r <= 299.
Proof. unfold ok. lia. Qed.

Section data_routes.

Variables (env : option string) (w : world).

(** *** The relay route *)

(** The [try] block of [/fetch-pif] ends after two more readings of the
    clock with the success reply, or throws before it reads the clock. *)
Lemma fetch_pif_try_outcome :
  (∃ rows, exec w 1 (fetch_pif_try (PIF_AI_APPS_SCRIPT env) (clock w 0)) = (Normal (relay_success w rows), 3%nat))
  ∨ (∃ e, exec w 1 (fetch_pif_try (PIF_AI_APPS_SCRIPT env) (clock w 0)) = (Thrown e, 1%nat)).
Proof.
  unfold fetch_pif_try. exec_steps.
  destruct (upstream w _) as [r|e]; [|eauto].
  destruct (ok r); cbn [negb]; [|exec_steps; eauto].
  exec_steps. destruct (json r) as [result|e]; [|eauto].
  exec_steps. destruct (get result "success") as [success|e]; [|eauto].
  destruct (truthy success); cbn [negb].
  2:{ exec_steps. destruct (get result "error"); exec_steps; eauto. }
  exec_steps. destruct (get result "data") as [data|e]; [|eauto].
  destruct (negb (truthy data) || negb (isArray data)); [exec_steps; eauto|].
  exec_steps. destruct (map_rows data) as [rows|e]; [|eauto].
  exec_steps. left. exists rows. reflexivity.
Qed.

Lemma serve_fetch_pif_normal (rep : reply) (n : nat) :
  exec w 1 (fetch_pif_try (PIF_AI_APPS_SCRIPT env) (clock w 0)) = (Normal rep, n) →
  serve env w FetchPif = Normal rep.
Proof.
  intros H. unfold serve, run, handler, fetch_pif.
  exec_steps. by rewrite H.
Qed.

Lemma serve_fetch_pif_thrown (e : exn) (n : nat) :
  exec w 1 (fetch_pif_try (PIF_AI_APPS_SCRIPT env) (clock w 0)) = (Thrown e, n) →
  serve env w FetchPif = Normal (relay_failure w (message e)).
Proof.
  intros H. unfold serve, run, handler, fetch_pif.
  exec_steps. rewrite H.
  destruct fetch_pif_try_outcome as [(rows & H') | (e' & H')];
    rewrite H' in H; inversion H; subst.
  unfold fetch_pif_catch. exec_steps. reflexivity.
Qed.

(** The start of both [try] blocks, for an upstream that answers with an OK
    status. *)
Ltac upstream_ok Hup Hok :=
  apply ok_spec in Hok;
  unfold fetch_pif_try, fetch_pif_raw_try; fold (request_url env);
  exec_steps; rewrite Hup; cbv iota; rewrite Hok; cbn [negb]; exec_steps.

(** C4: when the HTTP status of the upstream answer is outside the success
    range 200 to 299, [/fetch-pif] fails with an error that carries the
    numeric status and the status text, and answers HTTP 500 with that error
    string, which mentions the status. *)
Theorem upstream_http_error (r : response) :
  upstream w (request_url env) = Normal r →
  ¬ (200 <= status r <= 299) →
  serve env w FetchPif
  = Normal (relay_failure w ("Apps Script returned " +:+ pretty (status r) +:+ ": " +:+
                             statusText r)).
Proof.
  intros Hup Hok. rewrite <- ok_spec in Hok. apply not_true_is_false in Hok.
  apply (serve_fetch_pif_thrown (Error _) 1).
  unfold fetch_pif_try. fold (request_url env).
  exec_steps. rewrite Hup. cbv iota. rewrite Hok. reflexivity.
Qed.

(** C2, amended: when the upstream envelope has [success] true and a [data]
    array none of whose elements is [null], [/fetch-pif] answers HTTP 200
    with [{success:true, data, count, source, timestamp, elapsed}], where
    [data] is the transformed rows and [count] is their number. *)
Theorem fetch_pif_success (r : response) (result : value) (rows : list value) :
  upstream w (request_url env) = Normal r →
  200 <= status r <= 299 →
  json r = Normal result →
  get result "success" = Normal (VBool true) →
  get result "data" = Normal (VArr rows) →
  Forall (λ row, nullish row = false) rows →
  ∃ out, array_map transform_row rows = Normal out
       ∧ length out = length rows
       ∧ serve env w FetchPif = Normal (relay_success w out).
Proof.
  intros Hup Hok Hjson Hsuccess Hdata Hrows.
  destruct (array_map_defined rows Hrows) as (out & Hmap & Hall).
  exists out. split; [done|]. split; [symmetry; eapply Forall2_length, Hall|].
  apply (serve_fetch_pif_normal _ 3). upstream_ok Hup Hok.
  rewrite Hjson. exec_steps. rewrite Hsuccess. exec_steps. cbn [truthy negb].
  exec_steps. rewrite Hdata. exec_steps. cbn [truthy isArray negb orb map_rows].
  exec_steps. rewrite Hmap. exec_steps. reflexivity.
Qed.

(** A [null] among the rows makes the transform throw, and the reply is
    HTTP 500. *)
Lemma null_rows_are_rejected (r : response) (result : value) (rows : list value) :
  upstream w (request_url env) = Normal r →
  200 <= status r <= 299 →
  json r = Normal result →
  get result "success" = Normal (VBool true) →
  get result "data" = Normal (VArr rows) →
  Exists (λ row, nullish row = true) rows →
  ∃ e, serve env w FetchPif = Normal (relay_failure w (message e)).
Proof.
  intros Hup Hok Hjson Hsuccess Hdata Hrows.
  destruct (array_map_null rows Hrows) as [e Hmap]. exists e.
  apply (serve_fetch_pif_thrown e 1). upstream_ok Hup Hok.
  rewrite Hjson. exec_steps. rewrite Hsuccess. exec_steps. cbn [truthy negb].
  exec_steps. rewrite Hdata. exec_steps. cbn [truthy isArray negb orb map_rows].
  exec_steps. rewrite Hmap. reflexivity.
Qed.

Lemma invalid_data_reply (r : response) (result data : value) :
  upstream w (request_url env) = Normal r →
  200 <= status r <= 299 →
  json r = Normal result →
  get result "success" = Normal (VBool true) →
  get result "data" = Normal data →
  isArray data = false →
  serve env w FetchPif = Normal (relay_failure w "Invalid data format from Apps Script").
Proof.
  intros Hup Hok Hjson Hsuccess Hdata Harr.
  apply (serve_fetch_pif_thrown (Error _) 1). upstream_ok Hup Hok.
  rewrite Hjson. exec_steps. rewrite Hsuccess. exec_steps. cbn [truthy negb].
  exec_steps. rewrite Hdata. exec_steps. rewrite Harr, orb_true_r.
  exec_steps. reflexivity.
Qed.

(** C3: on [/fetch-pif], an envelope with [success] false fails with the
    error message upstream supplied, or with a generic message when there is
    none; an envelope whose [data] is missing or not an array fails with the
    invalid-data-format error; in each case the reply is HTTP 500 with
    [success:false] and that error string. *)
Theorem format_error_reply (r : response) (result : value) (msg : string) :
  upstream w (request_url env) = Normal r →
  200 <= status r <= 299 →
  json r = Normal result →
  format_error result msg →
  serve env w FetchPif = Normal (relay_failure w msg)
  ∧ code (relay_failure w msg) = 500
  ∧ field "success" (relay_failure w msg) = Some (VBool false)
  ∧ field "error" (relay_failure w msg) = Some (VStr msg).
Proof.
  intros Hup Hok Hjson Herr. split; [|done].
  destruct Herr as [msg Hsuccess Herror Hmsg | Hsuccess Herror
                   | Hsuccess Hdata | data Hsuccess Hdata Harr].
  - apply (serve_fetch_pif_thrown (Error msg) 1). upstream_ok Hup Hok.
    rewrite Hjson. exec_steps. rewrite Hsuccess. exec_steps. cbn [truthy negb].
    exec_steps. rewrite Herror. exec_steps.
    by destruct msg.
  - apply (serve_fetch_pif_thrown (Error _) 1). upstream_ok Hup Hok.
    rewrite Hjson. exec_steps. rewrite Hsuccess. exec_steps. cbn [truthy negb].
    exec_steps. rewrite Herror. exec_steps. reflexivity.
  - by apply (invalid_data_reply r result VUndefined).
  - by apply (invalid_data_reply r result data).
Qed.

(** C10: an envelope [{success:true, data:[]}] is not a failure:
    [/fetch-pif] answers HTTP 200 with [success:true], an empty [data] and
    [count] 0, whereas an envelope without [data] is answered with the
    invalid-data-format error. *)
Theorem empty_data_is_success (r : response) (result data : value) :
  upstream w (request_url env) = Normal r →
  200 <= status r <= 299 →
  json r = Normal result →
  get result "success" = Normal (VBool true) →
  get result "data" = Normal data →
  (data = VArr [] → serve env w FetchPif = Normal (relay_success w [])
                    ∧ field "count" (relay_success w []) = Some (VNum (S754_zero false)))
  ∧ (data = VUndefined →
     serve env w FetchPif = Normal (relay_failure w "Invalid data format from Apps Script")).
Proof.
  intros Hup Hok Hjson Hsuccess Hdata. split; intros ->.
  - split; [|reflexivity]. apply (serve_fetch_pif_normal _ 3). upstream_ok Hup Hok.
    rewrite Hjson. exec_steps. rewrite Hsuccess. exec_steps. cbn [truthy negb].
    exec_steps. rewrite Hdata. exec_steps. reflexivity.
  - by apply (invalid_data_reply r result VUndefined).
Qed.

(** *** The raw route *)

Lemma serve_raw_normal (rep : reply) (n : nat) :
  exec w 0 (fetch_pif_raw_try (PIF_AI_APPS_SCRIPT env)) = (Normal rep, n) →
  serve env w FetchPifRaw = Normal rep.
Proof.
  intros H. unfold serve, run, handler, fetch_pif_raw. exec_steps. by rewrite H.
Qed.

Lemma serve_raw_thrown (e : exn) (n : nat) :
  exec w 0 (fetch_pif_raw_try (PIF_AI_APPS_SCRIPT env)) = (Thrown e, n) →
  serve env w FetchPifRaw = Normal (raw_failure (message e)).
Proof.
  intros H. unfold serve, run, handler, fetch_pif_raw. exec_steps. by rewrite H.
Qed.

Lemma raw_try_outcome :
  (∃ success count sample fullData n,
     exec w 0 (fetch_pif_raw_try (PIF_AI_APPS_SCRIPT env))
     = (Normal {| code := 200;
                  body := VObj [("success", success); ("count", count);
                                ("sample", sample); ("fullData", fullData)] |}, n))
  ∨ (∃ e n, exec w 0 (fetch_pif_raw_try (PIF_AI_APPS_SCRIPT env)) = (Thrown e, n)).
Proof.
  unfold fetch_pif_raw_try. exec_steps.
  destruct (upstream w _) as [r|e]; [|eauto].
  destruct (ok r); cbn [negb]; [|exec_steps; eauto].
  exec_steps. destruct (json r) as [result|e]; [|eauto].
  exec_steps. destruct (get result "data") as [data|e]; [|eauto].
  exec_steps. destruct (optional_length data) as [len|e]; [|eauto].
  exec_steps. destruct (get result "success") as [success|e]; [|eauto].
  exec_steps. destruct (optional_slice data) as [rows|e]; [|eauto].
  exec_steps. left. eauto 10.
Qed.

(** C5, amended: for an upstream envelope received with an OK status whose
    [data] is an array, absent or [null], [/fetch-pif-raw] answers HTTP 200
    with [{success, count, sample, fullData}]: the upstream [success] as it
    is (possibly absent), the number of rows, the first five rows and all the
    rows, in the upstream order of columns; with at most five rows, [sample]
    and [fullData] are both the upstream [data]. *)
Theorem raw_reply (r : response) (props : list (string * value)) (rows : list value) :
  upstream w (request_url env) = Normal r →
  200 <= status r <= 299 →
  json r = Normal (VObj props) →
  rows_of (lookup_prop "data" props) = Some rows →
  serve env w FetchPifRaw = Normal (raw_success (lookup_prop "success" props) rows)
  ∧ ((length rows <= 5)%nat → take 5 rows = rows).
Proof.
  intros Hup Hok Hjson Hrows. split; [|intros; by apply take_ge].
  apply (serve_raw_normal _ 0). upstream_ok Hup Hok.
  rewrite Hjson. exec_steps. change (get (VObj props) ?k) with (Normal (lookup_prop k props)).
  exec_steps. destruct (lookup_prop "data" props) as [| | | | |elems|]; try discriminate;
    injection Hrows as <-; unfold optional_length, optional_slice; cbn [nullish slice_to];
    exec_steps; try reflexivity.
  change (get (VArr elems) "length") with (Normal (number (length elems))).
  exec_steps. rewrite NumberFacts.or_number. reflexivity.
Qed.



(** C7, amended: whatever exception the [try] block of a data route ends
    with (an upstream HTTP error, a format error, a network error or a
    timeout), the route catches it and answers HTTP 500, with
    [{success:false, error: <message>, timestamp, elapsed}] on [/fetch-pif]
    and with [{success:false, error: <message>}] on [/fetch-pif-raw]; both
    routes always end with a reply, never with an exception. *)
Theorem errors_become_replies :
  (∀ e n, exec w 1 (fetch_pif_try (PIF_AI_APPS_SCRIPT env) (clock w 0)) = (Thrown e, n) →
          serve env w FetchPif = Normal (relay_failure w (message e)))
  ∧ (∀ e n, exec w 0 (fetch_pif_raw_try (PIF_AI_APPS_SCRIPT env)) = (Thrown e, n) →
            serve env w FetchPifRaw = Normal (raw_failure (message e)))
  ∧ (∃ rep, serve env w FetchPif = Normal rep)
  ∧ (∃ rep, serve env w FetchPifRaw = Normal rep).
Proof.
  split; [exact serve_fetch_pif_thrown|]. split; [exact serve_raw_thrown|]. split.
  - destruct fetch_pif_try_outcome as [(rows & H) | (e & H)];
      eauto using serve_fetch_pif_normal, serve_fetch_pif_thrown.
  - destruct raw_try_outcome as [(s & c & m & f & n & H) | (e & n & H)];
      eauto using serve_raw_normal, serve_raw_thrown.
Qed.

(** C6, amended: every reply of [/], [/health] and [/fetch-pif], success or
    failure, has a [timestamp] that is a well-formed ISO 8601 string; the
    replies of [/fetch-pif-raw] have no [timestamp]. *)
Theorem timestamp_field (r : route) :
  (∀ i, (i < 3)%nat → Date.valid_time (clock w i)) →
  ∃ rep, serve env w r = Normal rep ∧
         match r with
         | FetchPifRaw => field "timestamp" rep = None
         | _ => ∃ s, field "timestamp" rep = Some (VStr s) ∧ Date.iso8601 s = true
         end.
Proof.
  intros Hclock. destruct r.
  - eexists. split; [reflexivity|]. eexists. split; [reflexivity|].
    apply DateFacts.toISOString_iso8601, Hclock; lia.
  - eexists. split; [reflexivity|]. eexists. split; [reflexivity|].
    apply DateFacts.toISOString_iso8601, Hclock; lia.
  - destruct fetch_pif_try_outcome as [(rows & H) | (e & H)].
    + exists (relay_success w rows). split; [by eapply serve_fetch_pif_normal|].
      eexists. split; [reflexivity|]. apply DateFacts.toISOString_iso8601, Hclock; lia.
    + exists (relay_failure w (message e)). split; [by eapply serve_fetch_pif_thrown|].
      eexists. split; [reflexivity|]. apply DateFacts.toISOString_iso8601, Hclock; lia.
  - destruct raw_try_outcome as [(s & c & m & f & n & H) | (e & n & H)].
    + eexists. split; [by eapply serve_raw_normal|]. reflexivity.
    + eexists. split; [by eapply serve_raw_thrown|]. reflexivity.
Qed.

(** C8: [GET /] and [GET /health] always answer HTTP 200 with the status
    token ["ok"], a service name and the current time, [/] with the map of
    the endpoints in addition; neither handler fetches anything, and the
    replies are the same whatever the upstream does. *)
Theorem health_routes :
  serve env w Root
  = Normal {| code := 200;
              body := VObj [("status", VStr "ok");
                            ("timestamp", VStr (Date.toISOString (clock w 0)));
                            ("message", VStr "PIF+AI Lookup Relay - Active");
                            ("service", VStr "PIF+AI Sheet Data Provider");
                            ("endpoints",
                              VObj [("health", VStr "GET /health");
                                    ("fetchPIF", VStr "GET /fetch-pif")])] |}
  ∧ serve env w Health
    = Normal {| code := 200;
                body := VObj [("status", VStr "ok");
                              ("service", VStr "PIF+AI Lookup Relay");
                              ("timestamp", VStr (Date.toISOString (clock w 0)))] |}
  ∧ offline (handler (PIF_AI_APPS_SCRIPT env) Root)
  ∧ offline (handler (PIF_AI_APPS_SCRIPT env) Health)
  ∧ ∀ u, serve env {| clock := clock w; upstream := u |} Root = serve env w Root
       ∧ serve env {| clock := clock w; upstream := u |} Health = serve env w Health.
Proof.
  repeat split; repeat constructor.
Qed.

End data_routes.


(** ** The examples of the specification *)

(** C2, on [{success:true, data:[["x","SYM","Name","4.5"]]}]: the reply has
    [data] [[["x","Name","SYM","4.5","4.5"]]] and [count] 1. *)
Lemma fetch_pif_success_example :
  serve None (sample_world (answers 200 "OK" one_row)) FetchPif
  = Normal (relay_success (sample_world (answers 200 "OK" one_row))
              [VArr [VStr "x"; VStr "Name"; VStr "SYM"; VStr "4.5"; VStr "4.5"]])
  ∧ field "count" (relay_success (sample_world (answers 200 "OK" one_row))
              [VArr [VStr "x"; VStr "Name"; VStr "SYM"; VStr "4.5"; VStr "4.5"]])
    = Some (number 1).
Proof.
  split; [|reflexivity].
  destruct (fetch_pif_success None (sample_world (answers 200 "OK" one_row))
              {| status := 200; statusText := "OK"; json := Normal one_row |}
              one_row [VArr [VStr "x"; VStr "SYM"; VStr "Name"; VStr "4.5"]])
    as (out & Hmap & _ & Hserve);
    [reflexivity | cbn; lia | reflexivity | reflexivity | reflexivity
    | repeat constructor |].
  injection Hmap as <-. exact Hserve.
Defined.

(** C2 as stated fails on [{success:true, data:[null]}]: [success] is true
    and [data] is an array, but reading [row[0]] of the [null] row throws,
    and the reply is HTTP 500. *)
Lemma fetch_pif_null_row :
  get null_row "success" = Normal (VBool true)
  ∧ (isArray <$> get null_row "data") = Normal true
  ∧ serve None (sample_world (answers 200 "OK" null_row)) FetchPif
    = Normal (relay_failure (sample_world (answers 200 "OK" null_row))
                "Cannot read properties of null (reading '0')")
  ∧ code (relay_failure (sample_world (answers 200 "OK" null_row))
            "Cannot read properties of null (reading '0')") = 500.
Proof. repeat split. Qed.

(** C3, on [{success:false, error:"quota exceeded"}] and on
    [{success:true, data:"not-an-array"}]. *)
Lemma format_error_examples :
  serve None (sample_world (answers 200 "OK" quota_exceeded)) FetchPif
  = Normal (relay_failure (sample_world (answers 200 "OK" quota_exceeded))
              "quota exceeded")
  ∧ serve None (sample_world (answers 200 "OK" data_is_a_string)) FetchPif
    = Normal (relay_failure (sample_world (answers 200 "OK" data_is_a_string))
                "Invalid data format from Apps Script").
Proof.
  split.
  - apply (format_error_reply None _
             {| status := 200; statusText := "OK"; json := Normal quota_exceeded |}
             quota_exceeded);
      [reflexivity | cbn; lia | reflexivity |].
    apply upstream_message; [reflexivity | reflexivity | discriminate].
  - apply (format_error_reply None _
             {| status := 200; statusText := "OK"; json := Normal data_is_a_string |}
             data_is_a_string);
      [reflexivity | cbn; lia | reflexivity |].
    by apply (data_not_array _ (VStr "not-an-array")).
Defined.

(** C4, on the upstream status 503. *)
Lemma upstream_503 :
  serve None (sample_world (answers 503 "Service Unavailable" VNull)) FetchPif
  = Normal (relay_failure (sample_world (answers 503 "Service Unavailable" VNull))
              "Apps Script returned 503: Service Unavailable").
Proof.
  apply (upstream_http_error None _
           {| status := 503; statusText := "Service Unavailable"; json := Normal VNull |});
    [reflexivity | cbn; lia].
Defined.

(** C5, on [{success:true, data:[["x","SYM","Name","4.5"]]}]: [sample] and
    [fullData] are the upstream [data], columns in the upstream order. *)
Lemma raw_reply_example :
  serve None (sample_world (answers 200 "OK" one_row)) FetchPifRaw
  = Normal {| code := 200;
              body := VObj [("success", VBool true);
                            ("count", number 1);
                            ("sample", VArr [VArr [VStr "x"; VStr "SYM"; VStr "Name"; VStr "4.5"]]);
                            ("fullData", VArr [VArr [VStr "x"; VStr "SYM"; VStr "Name"; VStr "4.5"]])] |}.
Proof.
  destruct (raw_reply None (sample_world (answers 200 "OK" one_row))
              {| status := 200; statusText := "OK"; json := Normal one_row |}
              [("success", VBool true);
               ("data", VArr [VArr [VStr "x"; VStr "SYM"; VStr "Name"; VStr "4.5"]])]
              [VArr [VStr "x"; VStr "SYM"; VStr "Name"; VStr "4.5"]])
    as [Hserve _];
    [reflexivity | cbn; lia | reflexivity | reflexivity |].
  exact Hserve.
Defined.

(** C5 as stated fails on [{success:true, data:{}}]: an object has no
    [slice], the call throws, and the reply is HTTP 500. *)
Lemma raw_data_is_an_object :
  serve None (sample_world (answers 200 "OK" data_is_an_object)) FetchPifRaw
  = Normal (raw_failure "result.data?.slice is not a function")
  ∧ code (raw_failure "result.data?.slice is not a function") = 500.
Proof. repeat split. Qed.

(** C6, on [/fetch-pif] with an upstream that timed out. *)
Lemma timestamp_field_example :
  ∃ rep, serve None (sample_world timed_out) FetchPif = Normal rep ∧
         ∃ s, field "timestamp" rep = Some (VStr s) ∧ Date.iso8601 s = true.
Proof.
  apply (timestamp_field None (sample_world timed_out) FetchPif).
  intros i Hi. unfold Date.valid_time, Date.maxTime. cbn. lia.
Defined.

(** C6 as stated fails on [/fetch-pif-raw]: neither its success body nor
    its failure body has a [timestamp]. *)
Lemma raw_has_no_timestamp :
  (field "timestamp" <$> serve None (sample_world (answers 200 "OK" one_row)) FetchPifRaw)
  = Normal None
  ∧ (field "timestamp" <$> serve None (sample_world timed_out) FetchPifRaw)
    = Normal None.
Proof. repeat split. Qed.

(** C7, on an upstream that timed out. *)
Lemma timed_out_replies :
  serve None (sample_world timed_out) FetchPif
  = Normal (relay_failure (sample_world timed_out)
              ("network timeout at: " +:+ request_url None))
  ∧ serve None (sample_world timed_out) FetchPifRaw
    = Normal (raw_failure ("network timeout at: " +:+ request_url None)).
Proof.
  destruct (errors_become_replies None (sample_world timed_out)) as (Hrelay & Hraw & _).
  split.
  - apply (Hrelay (FetchError ("network timeout at: " +:+ request_url None)) 1%nat).
    reflexivity.
  - apply (Hraw (FetchError ("network timeout at: " +:+ request_url None)) 0%nat).
    reflexivity.
Defined.

(** C7 as stated fails on [/fetch-pif-raw]: its error body is
    [{success:false, error}], without [timestamp] and without [elapsed]. *)
Lemma raw_failure_is_short :
  serve None (sample_world timed_out) FetchPifRaw
  = Normal {| code := 500;
              body := VObj [("success", VBool false);
                            ("error", VStr ("network timeout at: " +:+ request_url None))] |}
  ∧ (field "timestamp" <$> serve None (sample_world timed_out) FetchPifRaw) = Normal None
  ∧ (field "elapsed" <$> serve None (sample_world timed_out) FetchPifRaw) = Normal None.
Proof. repeat split. Qed.

(** C10, on [{success:true, data:[]}]. *)
Lemma empty_data_example :
  serve None (sample_world (answers 200 "OK" no_rows)) FetchPif
  = Normal (relay_success (sample_world (answers 200 "OK" no_rows)) [])
  ∧ field "count" (relay_success (sample_world (answers 200 "OK" no_rows)) [])
    = Some (VNum (S754_zero false)).
Proof.
  apply (empty_data_is_success None (sample_world (answers 200 "OK" no_rows))
           {| status := 200; statusText := "OK"; json := Normal no_rows |}
           no_rows (VArr []));
    [reflexivity | cbn; lia | reflexivity | reflexivity | reflexivity | reflexivity].
Defined.

(** * Further properties *)

(** ** More on the column transform *)

Lemma cell_or_empty_take (cells : list value) (i : nat) :
  (i < 4)%nat → cell_or_empty (take 4 cells) i = cell_or_empty cells i.
Proof. intros Hi. unfold cell_or_empty. by rewrite lookup_take_lt. Qed.

(** X1: the transform reads the first four cells of a row only: the cells
    from index 4 on do not change the relay row. *)
Theorem transform_reads_four_cells (cells rest : list value) (a b c d : value) :
  transform_row (VArr (take 4 cells)) = transform_row (VArr cells)
  ∧ transform_row (VArr (a :: b :: c :: d :: rest)) = transform_row (VArr [a; b; c; d]).
Proof.
  rewrite !transform_row_array. unfold relay_row. split; [|reflexivity].
  by rewrite !cell_or_empty_take by lia.
Qed.

Lemma cell_or_empty_normal (cells : list value) (i : nat) :
  truthy (cell_or_empty cells i) = true ∨ cell_or_empty cells i = VStr "".
Proof.
  unfold cell_or_empty. destruct (cells !! i) as [v|]; [|by right].
  destruct (truthy v) eqn:Hv; [by left | by right].
Qed.


Lemma transform_row_inv (row r : value) :
  transform_row row = Normal r →
  ∃ c0 c1 c2 c3,
    get row "0" = Normal c0 ∧ get row "1" = Normal c1 ∧
    get row "2" = Normal c2 ∧ get row "3" = Normal c3 ∧
    r = VArr [or c0 (VStr ""); or c2 (VStr ""); or c1 (VStr "");
              or c3 (VStr ""); or c3 (VStr "")].
Proof.
  unfold transform_row. intros H.
  destruct (get row "0") as [c0|]; [|discriminate]. rewrite bind_normal in H.
  destruct (get row "2") as [c2|]; [|discriminate]. rewrite bind_normal in H.
  destruct (get row "1") as [c1|]; [|discriminate]. rewrite bind_normal in H.
  destruct (get row "3") as [c3|]; [|discriminate]. rewrite bind_normal in H.
  injection H as <-. by exists c0, c1, c2, c3.
Qed.


Lemma relay_row_four (a b c d : value) (rest : list value) :
  relay_row (a :: b :: c :: d :: rest)
  = [or a (VStr ""); or c (VStr ""); or b (VStr ""); or d (VStr ""); or d (VStr "")].
Proof. reflexivity. Qed.

Lemma cell_or_empty_idem (cells : list value) (i : nat) :
  or (cell_or_empty cells i) (VStr "") = cell_or_empty cells i.
Proof.
  unfold or. destruct (cell_or_empty_normal cells i) as [-> | ->]; reflexivity.
Qed.

Lemma relay_row_twice (cells : list value) :
  relay_row (relay_row cells)
  = [cell_or_empty cells 0; cell_or_empty cells 1; cell_or_empty cells 2;
     cell_or_empty cells 3; cell_or_empty cells 3].
Proof.
  transitivity (relay_row [cell_or_empty cells 0; cell_or_empty cells 2;
                           cell_or_empty cells 1; cell_or_empty cells 3;
                           cell_or_empty cells 3]); [reflexivity|].
  by rewrite relay_row_four, !cell_or_empty_idem.
Qed.

(** X3: the transform is not idempotent: applied to a relay row it swaps
    cells 1 and 2 back, so that two passes give the first four upstream
    cells in their own order (falsy ones emptied, cell 3 repeated), and
    three passes give what one pass gives. *)
Theorem transform_thrice (cells : list value) :
  (r ← transform_row (VArr cells); transform_row r)
  = Normal (VArr [cell_or_empty cells 0; cell_or_empty cells 1;
                  cell_or_empty cells 2; cell_or_empty cells 3;
                  cell_or_empty cells 3])
  ∧ (r1 ← transform_row (VArr cells); r2 ← transform_row r1; transform_row r2)
    = transform_row (VArr cells).
Proof.
  rewrite transform_row_array, !bind_normal, transform_row_array, bind_normal,
    transform_row_array.
  rewrite relay_row_twice. split; [reflexivity|].
  by rewrite relay_row_four, !cell_or_empty_idem.
Qed.

(** *** Rows that are not arrays *)

(** X4: a row that is not an array is not refused: a number or a boolean
    gives five empty strings, and a string is read character by character. *)
Theorem transform_of_other_rows (row : value) (s : string) :
  match row with VBool _ | VNum _ => True | _ => False end →
  transform_row row = Normal (VArr [VStr ""; VStr ""; VStr ""; VStr ""; VStr ""])
  ∧ transform_row (VStr s)
    = Normal (VArr [char_or_empty s 0; char_or_empty s 2; char_or_empty s 1;
                    char_or_empty s 3; char_or_empty s 3]).
Proof.
  intros Hrow. split.
  - destruct row; try contradiction; reflexivity.
  - unfold transform_row, char_or_empty.
    assert (∀ key i, String.eqb key "length" = false → array_index key = Some i →
              get (VStr s) key = Normal (match String.get i s with
                                         | Some c => VStr (String c "")
                                         | None => VUndefined
                                         end)) as Hget.
    { intros key i Hkey Hi. unfold get. rewrite Hkey, Hi. by destruct (String.get i s). }
    rewrite (Hget "0" 0%nat), (Hget "1" 1%nat), (Hget "2" 2%nat), (Hget "3" 3%nat)
      by reflexivity.
    rewrite !bind_normal.
    repeat match goal with |- context [String.get ?i s] => destruct (String.get i s) end;
      reflexivity.
Qed.

(** *** Mapping the rows *)

Lemma array_map_inv (rows out : list value) :
  array_map transform_row rows = Normal out →
  Forall2 (λ row r, transform_row row = Normal r) rows out.
Proof.
  revert out. induction rows as [|row rows IH]; intros out H; cbn [array_map] in H.
  - injection H as <-. constructor.
  - destruct (transform_row row) as [r|] eqn:Hr; [|discriminate].
    rewrite bind_normal in H.
    destruct (array_map transform_row rows) as [rs|]; [|discriminate].
    rewrite bind_normal in H. injection H as <-. constructor; auto.
Qed.

(** X5: when the map over the rows succeeds, it gives as many relay rows
    as there were rows, in the same order: the relay row at [i] is the
    transform of the upstream row at [i], and has five cells. *)
Theorem array_map_keeps_order (rows out : list value) :
  array_map transform_row rows = Normal out →
  length out = length rows
  ∧ ∀ i row, rows !! i = Some row →
      ∃ r, out !! i = Some r ∧ transform_row row = Normal r ∧ five_cells r.
Proof.
  intros Hall%array_map_inv. split; [symmetry; by eapply Forall2_length|].
  intros i row Hrow.
  destruct (Forall2_lookup_l _ _ _ _ _ Hall Hrow) as (r & Hr & Ht).
  exists r. split; [done|]. split; [done|].
  apply transform_row_inv in Ht as (c0 & c1 & c2 & c3 & _ & _ & _ & _ & ->).
  unfold five_cells. eauto.
Qed.

Lemma array_map_null_message (rows : list value) :
  In VNull rows → Forall (λ row, row ≠ VUndefined) rows →
  array_map transform_row rows
  = Thrown (TypeError "Cannot read properties of null (reading '0')").
Proof.
  induction rows as [|row rows IH]; intros Hin Hdef; [destruct Hin|].
  apply Forall_cons in Hdef as [Hrow Hdef]. cbn [array_map].
  assert (row = VNull ∨ nullish row = false) as [-> | Hnull]
    by (destruct row; auto; contradiction).
  - reflexivity.
  - destruct Hin as [-> | Hin]; [discriminate|].
    destruct (transform_row_defined row Hnull) as (c0 & c1 & c2 & c3 & ->).
    by rewrite bind_normal, IH.
Qed.

Lemma array_map_five_cells (rows out : list value) :
  array_map transform_row rows = Normal out → Forall five_cells out.
Proof.
  intros Hall%array_map_inv. induction Hall as [|row r rows out Hr _ IH]; constructor; [|done].
  apply transform_row_inv in Hr as (c0 & c1 & c2 & c3 & _ & _ & _ & _ & ->).
  unfold five_cells. eauto.
Qed.

(** ** The requests of a program *)

Section requests_facts.
Context {A B : Type} (w : world).

Lemma requests_bind (f : A → io B) (p : io A) (n : nat) :
  requests w n (p ≫= f) =
  (requests w n p ++ match exec w n p with
                     | (Normal a, n') => requests w n' (f a)
                     | (Thrown _, _) => []
                     end)%list.
Proof.
  revert n. induction p as [a | e | k IH | url k IH]; intros n; cbn; auto.
  by rewrite <- IH.
Qed.

Lemma requests_try_catch (p : io A) (h : exn → io A) (n : nat) :
  requests w n (try_catch p h) =
  (requests w n p ++ match exec w n p with
                     | (Normal _, _) => []
                     | (Thrown e, n') => requests w n' (h e)
                     end)%list.
Proof.
  revert n. induction p as [a | e | k IH | url k IH]; intros n; cbn; auto.
  by rewrite <- IH.
Qed.

Lemma requests_offline (p : io A) (n : nat) : offline p → requests w n p = [].
Proof. intros H. revert n. induction H; intros n; cbn; auto. Qed.
End requests_facts.

Lemma offline_bind {A B} (p : io A) (f : A → io B) :
  offline p → (∀ a, offline (f a)) → offline (p ≫= f).
Proof. intros Hp Hf. induction Hp; cbn; auto; by constructor. Qed.

Lemma offline_eval {A} (c : completion A) : offline (eval c).
Proof. destruct c; constructor. Qed.

Lemma offline_now : offline now.
Proof. repeat constructor. Qed.

(** ** More on the routes *)

Section more_routes.

Variables (env : option string) (w : world).

(** The start of both [try] blocks, for an upstream that answers with an OK
    status and a body that parses. *)
Ltac parsed Hup Hok Hjson :=
  apply ok_spec in Hok;
  unfold fetch_pif_try, fetch_pif_raw_try; fold (request_url env);
  exec_steps; rewrite Hup; cbv iota; rewrite Hok; cbn [negb]; exec_steps;
  rewrite Hjson; exec_steps.

(** X6: one [null] among the rows fails the whole request, wherever it
    is and whatever the other rows are: the reply is HTTP 500 with the
    message of the TypeError, and no row is relayed. *)
Theorem null_row_message (r : response) (result : value) (rows : list value) :
  upstream w (request_url env) = Normal r →
  200 <= status r <= 299 →
  json r = Normal result →
  get result "success" = Normal (VBool true) →
  get result "data" = Normal (VArr rows) →
  In VNull rows → Forall (λ row, row ≠ VUndefined) rows →
  serve env w FetchPif
  = Normal (relay_failure w "Cannot read properties of null (reading '0')").
Proof.
  intros Hup Hok Hjson Hsuccess Hdata Hnull Hdef.
  apply (serve_fetch_pif_thrown env w (TypeError _) 1). parsed Hup Hok Hjson.
  rewrite Hsuccess. exec_steps. cbn [truthy negb]. exec_steps.
  rewrite Hdata. exec_steps. cbn [truthy isArray negb orb map_rows]. exec_steps.
  by rewrite array_map_null_message.
Qed.

(** X7: [success] is tested for truthiness, not compared with [true]: an
    envelope whose [success] is any truthy value (a non-empty string, a
    non-zero number, an object) with rows that are not [null] is relayed
    with HTTP 200. *)
Theorem truthy_success_is_success (r : response) (result success : value)
    (rows : list value) :
  upstream w (request_url env) = Normal r →
  200 <= status r <= 299 →
  json r = Normal result →
  get result "success" = Normal success → truthy success = true →
  get result "data" = Normal (VArr rows) →
  Forall (λ row, nullish row = false) rows →
  ∃ out, array_map transform_row rows = Normal out
       ∧ serve env w FetchPif = Normal (relay_success w out).
Proof.
  intros Hup Hok Hjson Hsuccess Htrue Hdata Hrows.
  destruct (array_map_defined rows Hrows) as (out & Hmap & _).
  exists out. split; [done|].
  apply (serve_fetch_pif_normal env w _ 3). parsed Hup Hok Hjson.
  rewrite Hsuccess. exec_steps. rewrite Htrue. cbn [negb]. exec_steps.
  rewrite Hdata. exec_steps. cbn [truthy isArray negb orb map_rows]. exec_steps.
  rewrite Hmap. exec_steps. reflexivity.
Qed.


(** X9: a body that parses to something that is not an object.  On
    [null], both data routes answer HTTP 500 with the message of the
    TypeError.  On an array, a string, a number or a boolean, [/fetch-pif]
    answers HTTP 500 with the generic message, and [/fetch-pif-raw] answers
    HTTP 200 with no [success], count 0 and empty [sample] and [fullData]. *)
Theorem body_is_not_an_object (r : response) (result : value) :
  upstream w (request_url env) = Normal r →
  200 <= status r <= 299 →
  json r = Normal result →
  match result with VObj _ | VUndefined => False | _ => True end →
  serve env w FetchPif
  = Normal (relay_failure w
              match result with
              | VNull => "Cannot read properties of null (reading 'success')"
              | _ => "Apps Script returned success: false"
              end)
  ∧ serve env w FetchPifRaw
    = Normal match result with
             | VNull => raw_failure "Cannot read properties of null (reading 'data')"
             | _ => raw_success VUndefined []
             end.
Proof.
  intros Hup Hok Hjson Hres. split.
  - assert (result = VNull ∨ nullish result = false) as [-> | Hnull]
      by (destruct result; auto; contradiction).
    + apply (serve_fetch_pif_thrown env w (TypeError _) 1). by parsed Hup Hok Hjson.
    + assert (get result "success" = Normal VUndefined
              ∧ get result "error" = Normal VUndefined) as [Hs He].
      { destruct result; try done. }
      transitivity (Normal (relay_failure w "Apps Script returned success: false"));
        [|by destruct result].
      apply (serve_fetch_pif_thrown env w (Error _) 1). parsed Hup Hok Hjson.
      rewrite Hs. exec_steps. cbn [truthy negb]. exec_steps. rewrite He. by exec_steps.
  - assert (result = VNull ∨ nullish result = false) as [-> | Hnull]
      by (destruct result; auto; contradiction).
    + apply (serve_raw_thrown env w (TypeError _) 0). by parsed Hup Hok Hjson.
    + assert (get result "success" = Normal VUndefined
              ∧ get result "data" = Normal VUndefined) as [Hs Hd].
      { destruct result; try done. }
      transitivity (Normal (raw_success VUndefined [])); [|by destruct result].
      apply (serve_raw_normal env w _ 0). parsed Hup Hok Hjson.
      rewrite !Hd. exec_steps. unfold optional_length, optional_slice. cbn [nullish].
      exec_steps. rewrite Hs. by exec_steps.
Qed.


(** X10: when [fetch] rejects (the network fails, or the 20 seconds pass),
    both data routes answer HTTP 500 with the message of the rejection. *)
Theorem upstream_rejects (e : exn) :
  upstream w (request_url env) = Thrown e →
  serve env w FetchPif = Normal (relay_failure w (message e))
  ∧ serve env w FetchPifRaw = Normal (raw_failure (message e)).
Proof.
  intros Hup. split.
  - apply (serve_fetch_pif_thrown env w e 1).
    unfold fetch_pif_try. fold (request_url env). exec_steps. by rewrite Hup.
  - apply (serve_raw_thrown env w e 0).
    unfold fetch_pif_raw_try. fold (request_url env). exec_steps. by rewrite Hup.
Qed.

(** X11: when the upstream answers with an OK status and a body that is
    not JSON, both data routes answer HTTP 500 with the message of the
    parser. *)
Theorem body_is_not_json (r : response) (e : exn) :
  upstream w (request_url env) = Normal r →
  200 <= status r <= 299 →
  json r = Thrown e →
  serve env w FetchPif = Normal (relay_failure w (message e))
  ∧ serve env w FetchPifRaw = Normal (raw_failure (message e)).
Proof.
  intros Hup Hok Hjson. split.
  - apply (serve_fetch_pif_thrown env w e 1). by parsed Hup Hok Hjson.
  - apply (serve_raw_thrown env w e 0). by parsed Hup Hok Hjson.
Qed.

(** X14: when the HTTP status of the upstream answer is outside 200 to
    299, [/fetch-pif-raw] answers HTTP 500 with an error that names the
    status, without the status text. *)
Theorem raw_http_error (r : response) :
  upstream w (request_url env) = Normal r →
  ¬ (200 <= status r <= 299) →
  serve env w FetchPifRaw
  = Normal (raw_failure ("Apps Script returned " +:+ pretty (status r))).
Proof.
  intros Hup Hok. rewrite <- ok_spec in Hok. apply not_true_is_false in Hok.
  apply (serve_raw_thrown env w (Error _) 0).
  unfold fetch_pif_raw_try. fold (request_url env).
  exec_steps. rewrite Hup. cbv iota. by rewrite Hok.
Qed.

(** X15: [/fetch-pif-raw] slices a [data] that is a string as it slices
    an array: [count] is its length, [sample] its first five characters and
    [fullData] the string; an empty string gives count 0 and two empty
    arrays. *)
Theorem raw_string_data (r : response) (props : list (string * value)) (s : string) :
  upstream w (request_url env) = Normal r →
  200 <= status r <= 299 →
  json r = Normal (VObj props) →
  lookup_prop "data" props = VStr s →
  serve env w FetchPifRaw
  = Normal {| code := 200;
              body := VObj [("success", lookup_prop "success" props);
                            ("count", number (String.length s));
                            ("sample", if decide (s = "") then VArr []
                                       else VStr (substring 0 5 s));
                            ("fullData", if decide (s = "") then VArr []
                                         else VStr s)] |}.
Proof.
  intros Hup Hok Hjson Hdata.
  apply (serve_raw_normal env w _ 0). parsed Hup Hok Hjson.
  change (get (VObj props) ?k) with (Normal (lookup_prop k props)).
  rewrite !Hdata. exec_steps. unfold optional_length, optional_slice.
  cbn [nullish slice_to].
  change (get (VStr s) "length") with (Normal (number (String.length s))).
  exec_steps. rewrite NumberFacts.or_number.
  destruct s as [|c s]; reflexivity.
Qed.


(** After its [fetch], the [try] block of each data route fetches no more. *)
Lemma fetch_pif_try_once (script : string) (t : Z) :
  ∃ k, fetch_pif_try script t = Fetch (script +:+ "?action=fetchPIF") k
     ∧ ∀ r, offline (k r).
Proof.
  eexists. split; [reflexivity|]. intros [r|e]; [|constructor]. cbn.
  destruct (negb (ok r)); [constructor|].
  apply offline_bind; [apply offline_eval|]. intros result.
  apply offline_bind; [apply offline_eval|]. intros success.
  destruct (negb (truthy success)).
  { apply offline_bind; [apply offline_eval|]. constructor. }
  apply offline_bind; [apply offline_eval|]. intros data.
  destruct (negb (truthy data) || negb (isArray data)); [constructor|].
  apply offline_bind; [apply offline_eval|]. intros rows.
  repeat constructor.
Qed.

Lemma fetch_pif_raw_try_once (script : string) :
  ∃ k, fetch_pif_raw_try script = Fetch (script +:+ "?action=fetchPIF") k
     ∧ ∀ r, offline (k r).
Proof.
  eexists. split; [reflexivity|]. intros [r|e]; [|constructor]. cbn.
  destruct (negb (ok r)); [constructor|].
  repeat (apply offline_bind; [apply offline_eval|]; intros ?).
  constructor.
Qed.

(** X12: whatever the upstream answers, a request to a data route makes
    exactly one request, to the configured script URL followed by
    [?action=fetchPIF]: nothing is retried; [/] and [/health] make none. *)
Theorem one_request_per_reply :
  requests w 0 (handler (PIF_AI_APPS_SCRIPT env) FetchPif) = [request_url env]
  ∧ requests w 0 (handler (PIF_AI_APPS_SCRIPT env) FetchPifRaw) = [request_url env]
  ∧ requests w 0 (handler (PIF_AI_APPS_SCRIPT env) Root) = []
  ∧ requests w 0 (handler (PIF_AI_APPS_SCRIPT env) Health) = [].
Proof.
  split; [|split; [|split; reflexivity]].
  - unfold handler, fetch_pif. rewrite requests_bind, exec_now. cbn [requests now app].
    rewrite requests_try_catch.
    destruct (fetch_pif_try_once (PIF_AI_APPS_SCRIPT env) (clock w 0)) as (k & Hk & Hoff).
    rewrite Hk. cbn [requests]. rewrite (requests_offline _ _ _ (Hoff _)).
    destruct (exec _ _ _) as [[rep|e] n]; [reflexivity|].
    by rewrite (requests_offline w (fetch_pif_catch (clock w 0) e) n) by repeat constructor.
  - unfold handler, fetch_pif_raw. rewrite requests_try_catch.
    destruct (fetch_pif_raw_try_once (PIF_AI_APPS_SCRIPT env)) as (k & Hk & Hoff).
    rewrite Hk. cbn [requests]. rewrite (requests_offline _ _ _ (Hoff _)).
    by destruct (exec _ _ _) as [[rep|e] n].
Qed.


(** *** What the replies always look like *)

Lemma fetch_pif_try_shape :
  (∃ rows, Forall five_cells rows
         ∧ exec w 1 (fetch_pif_try (PIF_AI_APPS_SCRIPT env) (clock w 0))
           = (Normal (relay_success w rows), 3%nat))
  ∨ (∃ e, exec w 1 (fetch_pif_try (PIF_AI_APPS_SCRIPT env) (clock w 0))
          = (Thrown e, 1%nat)).
Proof.
  unfold fetch_pif_try. exec_steps.
  destruct (upstream w _) as [r|e]; [|eauto].
  destruct (ok r); cbn [negb]; [|exec_steps; eauto].
  exec_steps. destruct (json r) as [result|e]; [|eauto].
  exec_steps. destruct (get result "success") as [success|e]; [|eauto].
  destruct (truthy success); cbn [negb].
  2:{ exec_steps. destruct (get result "error"); exec_steps; eauto. }
  exec_steps. destruct (get result "data") as [data|e]; [|eauto].
  destruct (negb (truthy data) || negb (isArray data)); [exec_steps; eauto|].
  exec_steps. destruct (map_rows data) as [rows|e] eqn:Hmap; [|eauto].
  exec_steps. left. exists rows. split; [|reflexivity].
  destruct data; try discriminate. by eapply array_map_five_cells.
Qed.

(** X13: every run of [/fetch-pif] ends with a reply that carries
    [elapsed], the difference between its first two readings of the clock,
    and that is of one of two kinds.  Either HTTP 200 with [success:true],
    no [error], [data] made of five-cell arrays whose last two cells are
    equal, and [count] the number of these arrays; or HTTP 500 with
    [success:false], an [error] string and no [data]. *)
Theorem relay_reply_shape :
  ∃ rep, serve env w FetchPif = Normal rep
       ∧ field "elapsed" rep = Some (VStr (elapsed w))
       ∧ ((code rep = 200
           ∧ field "success" rep = Some (VBool true)
           ∧ field "error" rep = None
           ∧ ∃ rows, field "data" rep = Some (VArr rows)
                   ∧ field "count" rep = Some (number (length rows))
                   ∧ Forall five_cells rows)
          ∨ (code rep = 500
             ∧ field "success" rep = Some (VBool false)
             ∧ field "data" rep = None
             ∧ ∃ msg, field "error" rep = Some (VStr msg))).
Proof.
  destruct fetch_pif_try_shape as [(rows & Hrows & H) | (e & H)].
  - exists (relay_success w rows). split; [by eapply serve_fetch_pif_normal|].
    split; [reflexivity|]. left. repeat split. by exists rows.
  - exists (relay_failure w (message e)). split; [by eapply serve_fetch_pif_thrown|].
    split; [reflexivity|]. right. repeat split. by exists (message e).
Qed.

Lemma raw_try_shape :
  (∃ success rows n,
     exec w 0 (fetch_pif_raw_try (PIF_AI_APPS_SCRIPT env))
     = (Normal (raw_success success rows), n))
  ∨ (∃ success c s n,
       exec w 0 (fetch_pif_raw_try (PIF_AI_APPS_SCRIPT env))
       = (Normal {| code := 200;
                    body := VObj [("success", success);
                                  ("count", number (String.length (String c s)));
                                  ("sample", VStr (substring 0 5 (String c s)));
                                  ("fullData", VStr (String c s))] |}, n))
  ∨ (∃ e n, exec w 0 (fetch_pif_raw_try (PIF_AI_APPS_SCRIPT env)) = (Thrown e, n)).
Proof.
  unfold fetch_pif_raw_try. exec_steps.
  destruct (upstream w _) as [r|e]; [|eauto 10].
  destruct (ok r); cbn [negb]; [|exec_steps; eauto 10].
  exec_steps. destruct (json r) as [result|e]; [|eauto 10].
  exec_steps. destruct (get result "data") as [data|e]; [|eauto 10].
  exec_steps. destruct (get result "success") as [success|e] eqn:Hsuccess.
  2:{ destruct (optional_length data); exec_steps; rewrite ?Hsuccess; eauto 10. }
  destruct data as [| | | |s|rows|]; unfold optional_length, optional_slice;
    cbn [nullish slice_to get]; exec_steps; rewrite ?Hsuccess; exec_steps.
  - left. by exists success, [], 0%nat.
  - left. by exists success, [], 0%nat.
  - right. right. eauto.
  - right. right. eauto.
  - change ("length" =? "length")%string with true. cbv iota.
    exec_steps. rewrite NumberFacts.or_number.
    destruct s as [|c s].
    + left. by exists success, [], 0%nat.
    + right. left. by exists success, c, s, 0%nat.
  - change ("length" =? "length")%string with true. cbv iota.
    exec_steps. rewrite NumberFacts.or_number.
    left. by exists success, rows, 0%nat.
  - right. right. eauto.
Qed.


(** X17: every run of [/fetch-pif-raw] ends with a reply of one of two
    kinds.  Either HTTP 200 without [error], where [fullData] is an array or
    a non-empty string, [sample] its first five elements and [count] its
    length; or HTTP 500 with [success:false], an [error] string and no
    [count]. *)
Theorem raw_reply_shape :
  ∃ rep, serve env w FetchPifRaw = Normal rep
       ∧ ((code rep = 200
           ∧ field "error" rep = None
           ∧ ((∃ rows, field "count" rep = Some (number (length rows))
                     ∧ field "sample" rep = Some (VArr (take 5 rows))
                     ∧ field "fullData" rep = Some (VArr rows))
              ∨ (∃ s, s ≠ ""
                    ∧ field "count" rep = Some (number (String.length s))
                    ∧ field "sample" rep = Some (VStr (substring 0 5 s))
                    ∧ field "fullData" rep = Some (VStr s))))
          ∨ (code rep = 500
             ∧ field "success" rep = Some (VBool false)
             ∧ field "count" rep = None
             ∧ ∃ msg, field "error" rep = Some (VStr msg))).
Proof.
  destruct raw_try_shape as [(success & rows & n & H)
                            | [(success & c & s & n & H) | (e & n & H)]].
  - eexists. split; [by eapply serve_raw_normal|]. left.
    split; [reflexivity|]. split; [reflexivity|]. left. by exists rows.
  - eexists. split; [by eapply serve_raw_normal|]. left.
    split; [reflexivity|]. split; [reflexivity|]. right. by exists (String c s).
  - eexists. split; [by eapply serve_raw_thrown|]. right.
    repeat split. by exists (message e).
Qed.

(** *** The middleware *)



End more_routes.

(** ** Examples *)



(** X4, on the rows [true] and ["ABC"]. *)
Lemma scalar_and_string_rows :
  transform_row (VBool true)
  = Normal (VArr [VStr ""; VStr ""; VStr ""; VStr ""; VStr ""])
  ∧ transform_row (VStr "ABC")
    = Normal (VArr [char_or_empty "ABC" 0; char_or_empty "ABC" 2;
                    char_or_empty "ABC" 1; char_or_empty "ABC" 3;
                    char_or_empty "ABC" 3]).
Proof. apply (transform_of_other_rows (VBool true) "ABC"). exact I. Defined.

(** X5, on the rows [["a"]] and [["b"]]. *)
Lemma two_rows_in_order :
  length [VArr [VStr "a"; VStr ""; VStr ""; VStr ""; VStr ""];
          VArr [VStr "b"; VStr ""; VStr ""; VStr ""; VStr ""]] = length [VArr [VStr "a"]; VArr [VStr "b"]]
  ∧ ∀ i row, [VArr [VStr "a"]; VArr [VStr "b"]] !! i = Some row →
      ∃ r, [VArr [VStr "a"; VStr ""; VStr ""; VStr ""; VStr ""];
            VArr [VStr "b"; VStr ""; VStr ""; VStr ""; VStr ""]] !! i = Some r
         ∧ transform_row row = Normal r ∧ five_cells r.
Proof. apply (array_map_keeps_order [VArr [VStr "a"]; VArr [VStr "b"]]). reflexivity. Defined.

(** X6, on a [null] that follows a good row. *)
Lemma null_after_row_example :
  serve None (sample_world (answers 200 "OK" null_after_row)) FetchPif
  = Normal (relay_failure (sample_world (answers 200 "OK" null_after_row))
              "Cannot read properties of null (reading '0')").
Proof.
  apply (null_row_message None _
           {| status := 200; statusText := "OK"; json := Normal null_after_row |}
           null_after_row
           [VArr [VStr "x"; VStr "SYM"; VStr "Name"; VStr "4.5"]; VNull]);
    [reflexivity | cbn; lia | reflexivity | reflexivity | reflexivity
    | right; left; reflexivity | repeat constructor; discriminate].
Defined.

(** X7, on [{success:"false", data:[...]}]. *)
Lemma success_is_a_string_example :
  ∃ out, array_map transform_row [VArr [VStr "x"; VStr "SYM"; VStr "Name"; VStr "4.5"]]
         = Normal out
       ∧ serve None (sample_world (answers 200 "OK" success_is_a_string)) FetchPif
         = Normal (relay_success (sample_world (answers 200 "OK" success_is_a_string)) out).
Proof.
  apply (truthy_success_is_success None _
           {| status := 200; statusText := "OK"; json := Normal success_is_a_string |}
           success_is_a_string (VStr "false"));
    [reflexivity | cbn; lia | reflexivity | reflexivity | reflexivity | reflexivity
    | repeat constructor].
Defined.


(** X9, on rows sent without an envelope. *)
Lemma bare_rows_example :
  serve None (sample_world (answers 200 "OK" bare_rows)) FetchPif
  = Normal (relay_failure (sample_world (answers 200 "OK" bare_rows))
              "Apps Script returned success: false")
  ∧ serve None (sample_world (answers 200 "OK" bare_rows)) FetchPifRaw
    = Normal (raw_success VUndefined []).
Proof.
  apply (body_is_not_an_object None _
           {| status := 200; statusText := "OK"; json := Normal bare_rows |} bare_rows);
    [reflexivity | cbn; lia | reflexivity | exact I].
Defined.

(** X10, on an upstream that timed out. *)
Lemma timed_out_example :
  serve None (sample_world timed_out) FetchPif
  = Normal (relay_failure (sample_world timed_out)
              ("network timeout at: " +:+ request_url None))
  ∧ serve None (sample_world timed_out) FetchPifRaw
    = Normal (raw_failure ("network timeout at: " +:+ request_url None)).
Proof.
  apply (upstream_rejects None (sample_world timed_out)
           (FetchError ("network timeout at: " +:+ request_url None))).
  reflexivity.
Defined.

(** X11, on a body that is not JSON. *)
Lemma html_page_example :
  serve None (sample_world html_page) FetchPif
  = Normal (relay_failure (sample_world html_page) "invalid json response body")
  ∧ serve None (sample_world html_page) FetchPifRaw
    = Normal (raw_failure "invalid json response body").
Proof.
  apply (body_is_not_json None (sample_world html_page)
           {| status := 200; statusText := "OK";
              json := Thrown (FetchError "invalid json response body") |}
           (FetchError "invalid json response body"));
    [reflexivity | cbn; lia | reflexivity].
Defined.

(** X14, on the upstream status 503. *)
Lemma raw_503 :
  serve None (sample_world (answers 503 "Service Unavailable" VNull)) FetchPifRaw
  = Normal (raw_failure "Apps Script returned 503").
Proof.
  apply (raw_http_error None _
           {| status := 503; statusText := "Service Unavailable"; json := Normal VNull |});
    [reflexivity | cbn; lia].
Defined.

(** X15, on [{success:true, data:"not-an-array"}]. *)
Lemma raw_string_data_example :
  serve None (sample_world (answers 200 "OK" data_is_a_string)) FetchPifRaw
  = Normal {| code := 200;
              body := VObj [("success", VBool true);
                            ("count", number 12);
                            ("sample", VStr "not-a");
                            ("fullData", VStr "not-an-array")] |}.
Proof.
  apply (raw_string_data None _
           {| status := 200; statusText := "OK"; json := Normal data_is_a_string |}
           [("success", VBool true); ("data", VStr "not-an-array")] "not-an-array");
    [reflexivity | cbn; lia | reflexivity | reflexivity].
Defined.

